(** * HoloPy: the Gaussian noise model of holopy/inference/noise_model.py

    A shallow embedding of [NoiseModel] and [AlphaModel].  Python floats and
    numpy's float64 are IEEE binary64 numbers, modelled by Rocq's primitive
    floats; exceptions are an explicit result type; calls to collaborators
    (priors, constraints, the scattering solver, the pixel subsetter) are
    logged in a trace so that "is never called" is a statement about a
    list. *)

From Stdlib Require Import Uint63 Floats ZArith Lia List String Bool.
Import ListNotations.

Local Open Scope string_scope.
Local Open Scope list_scope.

(** ** IEEE binary64 numbers *)

Module F64.

Definition inf : float := infinity.
Definition ninf : float := neg_infinity.       (* -np.inf *)
Definition np_pi : float := 0x1.921fb54442d18p+1%float.  (* np.pi *)

(** Finite: a zero or a (sub)normal number, neither NaN nor infinite. *)
Definition finite (x : float) : bool :=
  match Prim2SF x with
  | S754_zero _ | S754_finite _ _ _ => true
  | _ => false
  end.

(** Strictly positive, possibly [+inf]: the sign is [+] and it is not 0. *)
Definition positive (x : float) : bool :=
  match Prim2SF x with
  | S754_finite false _ _ | S754_infinity false => true
  | _ => false
  end.

(** Strictly positive and finite. *)
Definition pos_finite (x : float) : bool :=
  match Prim2SF x with
  | S754_finite false _ _ => true
  | _ => false
  end.

(** Python's int -> float conversion, exact below 2^53. *)
Definition of_nat (n : nat) : float :=
  PrimFloat.of_uint63 (Uint63.of_Z (Z.of_nat n)).

Definition sq (x : float) : float := (x * x)%float.   (* numpy's x ** 2 *)

End F64.

(** ** Python values, dicts and exceptions *)

Inductive pyval : Type :=
| VFloat (x : float)        (* a Python float *)
| VArr (xs : list float)    (* a numpy / xarray array, flattened *)
| VStr (s : string).        (* a str: what iterating a dict yields *)

(** A dict keeps insertion order; keys are unique. *)
Definition pydict : Type := list (string * pyval).

Fixpoint dict_get (d : pydict) (k : string) : option pyval :=
  match d with
  | [] => None
  | (k', v) :: rest => if String.eqb k k' then Some v else dict_get rest k
  end.

(** [d[k] = v]: overwrite in place, or append a new key. *)
Fixpoint dict_set (d : pydict) (k : string) (v : pyval) : pydict :=
  match d with
  | [] => [(k, v)]
  | (k', v') :: rest =>
      if String.eqb k k' then (k', v) :: rest else (k', v') :: dict_set rest k v
  end.

Definition dict_keys (d : pydict) : list string := map fst d.

Inductive exn : Type :=
| KeyError (key : string)
| AttributeError (attr : string)
| TypeError
| ValueError
| OverflowError
| MultisphereFailure
| InvalidScatterer
| OtherError (msg : string).

Inductive result (A : Type) : Type :=
| Ok (a : A)
| Raise (e : exn).
Arguments Ok {A} a.
Arguments Raise {A} e.

(** The exceptions of [except (MultisphereFailure, InvalidScatterer)]. *)
Definition is_scattering_failure (e : exn) : bool :=
  match e with
  | MultisphereFailure | InvalidScatterer => true
  | _ => false
  end.

(** Observed data: the flattened values of the array and its metadata. *)
Record DataArray : Type := {
  values : list float;
  attrs : pydict
}.

Definition size (d : DataArray) : nat := List.length (values d).

(** ** Calls to collaborators, and the monad that logs them *)

Inductive event : Type :=
| EvCheck (packed : pydict)                     (* constraint.check(scatterer.make_from(packed)) *)
| EvLnprob (par : string) (v : pyval)           (* parameter.lnprob(v) *)
| EvCalcField (schema : DataArray)              (* calc_field(schema, ...) *)
| EvCalcHolo (schema : DataArray) (scaling : pyval)   (* calc_holo(schema, ..., scaling=...) *)
| EvSubset (data : DataArray) (pixels : list nat).    (* make_subset_data(data, pixels=...) *)

Definition is_lnprob_call (e : event) : bool :=
  match e with EvLnprob _ _ => true | _ => false end.

Definition is_solver_call (e : event) : bool :=
  match e with EvCalcField _ | EvCalcHolo _ _ => true | _ => false end.

Definition M (A : Type) : Type := list event * result A.

Definition ret {A} (a : A) : M A := ([], Ok a).
Definition raise {A} (e : exn) : M A := ([], Raise e).
Definition tell (e : event) : M unit := ([e], Ok tt).
Definition lift {A} (r : result A) : M A := ([], r).

Definition bind {A B} (m : M A) (k : A -> M B) : M B :=
  match m with
  | (t, Ok a) => let (t', r) := k a in (t ++ t', r)
  | (t, Raise e) => (t, Raise e)
  end.

Notation "x <- m ;; k" := (bind m (fun x => k))
  (at level 61, m at next level, right associativity).
Notation "' p <- m ;; k" := (bind m (fun x => let p := x in k))
  (at level 61, p pattern, m at next level, right associativity).
Notation "m ;;; k" := (bind m (fun _ => k))
  (at level 61, right associativity).

Definition trace {A} (m : M A) : list event := fst m.
Definition outcome {A} (m : M A) : result A := snd m.

(** A list comprehension [[f x for x in xs]]: elements left to right,
    stopping at the first exception. *)
Fixpoint comprehension {A B} (f : A -> M B) (xs : list A) : M (list B) :=
  match xs with
  | [] => ret []
  | x :: rest =>
      y <- f x;;
      ys <- comprehension f rest;;
      ret (y :: ys)
  end.

(** Python's [sum]: a left fold from the int 0, which the first addition
    coerces to 0.0.  (On an empty list Python returns the int 0; it compares
    and adds like 0.0.) *)
Definition py_sum (xs : list float) : float :=
  fold_left PrimFloat.add xs 0%float.

(** [d[k]], raising KeyError. *)
Definition subscript (d : pydict) (k : string) : result pyval :=
  match dict_get d k with
  | Some v => Ok v
  | None => Raise (KeyError k)
  end.

(** ** Array arithmetic (numpy broadcasting on flattened arrays) *)

Fixpoint zip_with (f : float -> float -> float) (xs ys : list float) : list float :=
  match xs, ys with
  | x :: xs', y :: ys' => f x y :: zip_with f xs' ys'
  | _, _ => []
  end.

(** [a op b]: a scalar or a one-element array is stretched over the other
    operand; arrays of equal size combine element by element. *)
Definition broadcast (f : float -> float -> float) (a b : pyval) : result pyval :=
  match a, b with
  | VFloat x, VFloat y => Ok (VFloat (f x y))
  | VFloat x, VArr ys => Ok (VArr (map (f x) ys))
  | VArr xs, VFloat y => Ok (VArr (map (fun x => f x y) xs))
  | VArr xs, VArr ys =>
      if Nat.eqb (List.length xs) (List.length ys) then Ok (VArr (zip_with f xs ys))
      else match xs, ys with
           | [x], _ => Ok (VArr (map (f x) ys))
           | _, [y] => Ok (VArr (map (fun x => f x y) xs))
           | _, _ => Raise ValueError
           end
  | _, _ => Raise TypeError
  end.

(** [a.values]: the numpy array under an xarray; a bare float has none. *)
Definition dot_values (a : pyval) : result (list float) :=
  match a with
  | VArr xs => Ok xs
  | _ => Raise (AttributeError "values")
  end.

(** Modelled from the spec: [holopy.core.utils.ensure_array], which is not in
    this file; the spec says the value is "coerced to an array-like form even
    if scalar".  A str has no logarithm, so the numeric use raises. *)
Definition ensure_array (a : pyval) : result (list float) :=
  match a with
  | VFloat x => Ok [x]
  | VArr xs => Ok xs
  | VStr _ => Raise TypeError
  end.

(** ** The model objects *)

Section Inference.

(** Concrete scatterers and computed fields belong to the scattering
    package. *)
Variables Scatterer Field : Type.

Record PriorParameter : Type := {
  name : string;
  lnprob : pyval -> float
}.

Record ScattererConstraint : Type := {
  check : Scatterer -> bool
}.

Record ScattererTemplate : Type := {
  make_from : pydict -> Scatterer
}.

Inductive model_class : Type := NoiseModelClass | AlphaModelClass.

(** An instance.  [get_par] and [_optics_scatterer] are methods inherited
    from BaseModel (holopy/fitting/model.py, not in this file): they are
    fields here.  [get_par] may pop the name from [pars], so it returns the
    mapping it leaves behind. *)
Record Model : Type := {
  class_of : model_class;
  scatterer : ScattererTemplate;
  parameters : list PriorParameter;
  constraints : list ScattererConstraint;
  theory : string;
  get_par : string -> pydict -> option DataArray -> result (pyval * pydict);
  _optics_scatterer : pydict -> DataArray -> result (pydict * Scatterer)
}.

(** What the module imports from numpy and from the rest of holopy, and
    the C library's [pow], which Python's [**] on floats calls. *)
Class Imports : Type := {
  libm_pow : float -> float -> float;
  np_log : float -> float;
  np_mean : list float -> float;
  np_sum : list float -> float;
  calc_field : DataArray -> Scatterer -> string -> pydict -> result Field;
  calc_holo : DataArray -> Scatterer -> string -> pyval -> pydict -> result (list float);
  make_subset_data : DataArray -> list nat -> DataArray;
  dict_to_array : DataArray -> pyval -> result pyval
}.

Context {imports : Imports}.

(** [x ** 2] on a Python float, as [float.__pow__] computes it: NaN,
    infinities and zeros are answered directly, 1 is 1, and otherwise the
    result is C's [pow(|x|, 2.0)], with OverflowError when that is infinite.
    It need not be the rounded product [x * x]. *)
Definition float_square (x : float) : result float :=
  match Prim2SF x with
  | S754_nan => Ok nan
  | S754_infinity _ => Ok F64.inf
  | S754_zero _ => Ok 0%float
  | S754_finite _ _ _ =>
      if (abs x =? 1)%float then Ok 1%float
      else
        let r := libm_pow (abs x) 2%float in
        if PrimFloat.is_infinity r then Raise OverflowError else Ok r
  end.

(** [a ** 2]: Python's power on a float; numpy's power on an array, which
    for the exponent 2 multiplies each element by itself. *)
Definition square (a : pyval) : result pyval :=
  match a with
  | VFloat x =>
      match float_square x with
      | Ok r => Ok (VFloat r)
      | Raise e => Raise e
      end
  | VArr xs => Ok (VArr (map F64.sq xs))
  | VStr _ => Raise TypeError
  end.

(** [par_vals]: a name-keyed dict or a positional sequence. *)
Inductive ParVals : Type :=
| PDict (d : pydict)
| PSeq (vs : list pyval).

(** What [for x in par_vals] yields: the elements of a sequence, the keys
    of a dict. *)
Definition iterate (par_vals : ParVals) : list pyval :=
  match par_vals with
  | PSeq vs => vs
  | PDict d => map VStr (dict_keys d)
  end.

(** [{par.name: val for par, val in zip(self.parameters, vals)}] *)
Definition pack_pairs (pairs : list (PriorParameter * pyval)) : pydict :=
  fold_left (fun d pv => dict_set d (name (fst pv)) (snd pv)) pairs [].

Definition _pack (self : Model) (vals : ParVals) : pydict :=
  pack_pairs (combine (parameters self) (iterate vals)).

(** The loop over [self.constraints]: [false] when it returns early. *)
Fixpoint constraints_loop (self : Model) (par_vals : ParVals)
         (cs : list ScattererConstraint) : M bool :=
  match cs with
  | [] => ret true
  | constraint :: rest =>
      let packed := _pack self par_vals in
      tell (EvCheck packed);;;
      if check constraint (make_from (scatterer self) packed)
      then constraints_loop self par_vals rest
      else ret false
  end.

Definition call_lnprob (p : PriorParameter) (v : pyval) : M float :=
  tell (EvLnprob (name p) v);;;
  ret (lnprob p v).

Definition lnprior (self : Model) (par_vals : ParVals) : M float :=
  passed <- constraints_loop self par_vals (constraints self);;
  if passed then
    match par_vals with
    | PDict d =>
        terms <- comprehension
                   (fun p => v <- lift (subscript d (name p));; call_lnprob p v)
                   (parameters self);;
        ret (py_sum terms)
    | PSeq vs =>
        terms <- comprehension (fun pv => call_lnprob (fst pv) (snd pv))
                   (combine (parameters self) vs);;
        ret (py_sum terms)
    end
  else ret F64.ninf.

(** [try: return calc(...) except (MultisphereFailure, InvalidScatterer):
    return -np.inf] *)
Definition catch_scattering_failure {A B} (r : result A) (ok : A -> B)
           (sentinel : B) : M B :=
  match r with
  | Ok a => ret (ok a)
  | Raise e => if is_scattering_failure e then ret sentinel else raise e
  end.

(** The nested [get_par] that [_fields] defines is never called. *)
Definition _fields (self : Model) (pars : pydict) (schema : DataArray)
  : M (Field + float) :=
  os <- lift (_optics_scatterer self pars schema);;
  tell (EvCalcField schema);;;
  catch_scattering_failure
    (calc_field schema (snd os) (theory self) (fst os))
    inl (inr F64.ninf).

Definition AlphaModel_forward (self : Model) (pars : pydict)
           (schema : DataArray) (alpha : option pyval) : M pyval :=
  ap <- match alpha with
        | Some a => ret (a, pars)
        | None => lift (get_par self "alpha" pars None)
        end;;
  os <- lift (_optics_scatterer self (snd ap) schema);;
  tell (EvCalcHolo schema (fst ap));;;
  catch_scattering_failure
    (calc_holo schema (snd os) (theory self) (fst ap) (fst os))
    VArr (VFloat F64.ninf).

(** [self._forward]: only AlphaModel defines it. *)
Definition _forward (self : Model) (pars : pydict) (schema : DataArray)
           (alpha : option pyval) : M pyval :=
  match class_of self with
  | AlphaModelClass => AlphaModel_forward self pars schema alpha
  | NoiseModelClass => raise (AttributeError "_forward")
  end.

(** [-N/2]: the int is negated first, and [-0] is the int 0. *)
Definition neg_half (n : nat) : float :=
  match n with
  | O => (0 / 2)%float
  | _ => (- F64.of_nat n / 2)%float
  end.

Definition _lnlike (self : Model) (pars : pydict) (data : DataArray) : M float :=
  rp <- lift (get_par self "noise_sd" pars (Some data));;
  noise_sd <- lift (dict_to_array data (fst rp));;
  forward <- _forward self (snd rp) data None;;
  let N := size data in
  let t1 := (neg_half N * np_log (2 * F64.np_pi))%float in
  sds <- lift (ensure_array noise_sd);;
  let t2 := (F64.of_nat N * np_mean (map np_log sds))%float in
  resid <- lift (broadcast PrimFloat.sub forward (VArr (values data)));;
  num <- lift (square resid);;
  sd2 <- lift (square noise_sd);;
  den <- lift (broadcast PrimFloat.mul (VFloat 2%float) sd2);;
  quot <- lift (broadcast PrimFloat.div num den);;
  terms <- lift (dot_values quot);;
  ret (t1 - t2 - np_sum terms)%float.

Definition lnlike (self : Model) (par_vals : ParVals) (data : DataArray) : M float :=
  _lnlike self (_pack self par_vals) data.

Definition lnposterior (self : Model) (par_vals : ParVals) (data : DataArray)
           (pixels : option (list nat)) : M float :=
  lp <- lnprior self par_vals;;
  if (lp =? F64.ninf)%float then ret lp
  else
    data' <- match pixels with
             | Some px => tell (EvSubset data px);;; ret (make_subset_data data px)
             | None => ret data
             end;;
    ll <- lnlike self par_vals data';;
    ret (lp + ll)%float.

(** ** What the properties are stated with *)

(** All constraints accept the scatterer made from the packed values. *)
Definition constraints_pass (self : Model) (par_vals : ParVals) : bool :=
  forallb (fun c => check c (make_from (scatterer self) (_pack self par_vals)))
          (constraints self).

Definition lnprob_of (pv : PriorParameter * pyval) : float :=
  lnprob (fst pv) (snd pv).

Definition lnprob_call_of (pv : PriorParameter * pyval) : event :=
  EvLnprob (name (fst pv)) (snd pv).

(** [lnprior + lnlike] when the likelihood returns; its exception
    otherwise. *)
Definition add_outcome (lp : float) (r : result float) : result float :=
  match r with
  | Ok ll => Ok (lp + ll)%float
  | Raise e => Raise e
  end.

Definition subset_call (e : event) : option (DataArray * list nat) :=
  match e with
  | EvSubset data px => Some (data, px)
  | _ => None
  end.

(** The calls to [make_subset_data] in a trace, in order. *)
Fixpoint subset_calls (t : list event) : list (DataArray * list nat) :=
  match t with
  | [] => []
  | e :: rest =>
      match subset_call e with
      | Some c => c :: subset_calls rest
      | None => subset_calls rest
      end
  end.

(** The value of [try: return calc(...) except ...: return -np.inf]. *)
Definition caught {A B} (r : result A) (ok : A -> B) (sentinel : B) : result B :=
  match r with
  | Ok a => Ok (ok a)
  | Raise e => if is_scattering_failure e then Ok sentinel else Raise e
  end.

(** [noise_sd] is one number: a float, or the one-element array that
    [ensure_array] makes of it. *)
Definition constant_sd (noise_sd : pyval) (sigma : float) : Prop :=
  noise_sd = VFloat sigma \/ noise_sd = VArr [sigma].

(** [noise_sd ** 2] for a constant [noise_sd]: Python's power when it is a
    float, numpy's when it is a one-element array. *)
Definition constant_sd_squared (noise_sd : pyval) : result float :=
  match noise_sd with
  | VFloat s => float_square s
  | VArr [s] => Ok (F64.sq s)
  | _ => Raise TypeError
  end.

(** [(forward - data)^2 / (2 * noise_sd^2)], pixel by pixel, from the
    squares [noise_sd^2]. *)
Fixpoint residual_terms (forward data sd_squares : list float) : list float :=
  match forward, data, sd_squares with
  | f :: fs, d :: ds, s2 :: ss =>
      (F64.sq (f - d) / (2 * s2))%float :: residual_terms fs ds ss
  | _, _, _ => []
  end.

(** The formula as the specification words it:
    [-N/2*log(2*pi) - N*mean(log(noise_sd)) - sum((forward-data)^2/(2*noise_sd^2))],
    with [N] the number of elements of [data]. *)
Definition gaussian_loglik (noise_sd forward data sd_squares : list float) : float :=
  let N := List.length data in
  (neg_half N * np_log (2 * F64.np_pi)
   - F64.of_nat N * np_mean (map np_log noise_sd)
   - np_sum (residual_terms forward data sd_squares))%float.

(** [-N/2*log(2*pi) - N*log(sigma)] *)
Definition zero_residual_loglik (N : nat) (sigma : float) : float :=
  (neg_half N * np_log (2 * F64.np_pi) - F64.of_nat N * np_log sigma)%float.

End Inference.

Arguments check {Scatterer} _ _.
Arguments make_from {Scatterer} _ _.
Arguments class_of {Scatterer} _.
Arguments scatterer {Scatterer} _.
Arguments parameters {Scatterer} _.
Arguments constraints {Scatterer} _.
Arguments theory {Scatterer} _.
Arguments get_par {Scatterer} _ _ _ _.
Arguments _optics_scatterer {Scatterer} _ _ _.
Arguments libm_pow {Scatterer Field Imports} _ _.
Arguments np_log {Scatterer Field Imports} _.
Arguments np_mean {Scatterer Field Imports} _.
Arguments np_sum {Scatterer Field Imports} _.
Arguments calc_field {Scatterer Field Imports} _ _ _ _.
Arguments calc_holo {Scatterer Field Imports} _ _ _ _ _.
Arguments make_subset_data {Scatterer Field Imports} _ _.
Arguments dict_to_array {Scatterer Field Imports} _ _.
Arguments _pack {Scatterer} self vals.
Arguments constraints_loop {Scatterer} self par_vals cs.
Arguments lnprior {Scatterer} self par_vals.
Arguments _fields {Scatterer Field imports} self pars schema.
Arguments AlphaModel_forward {Scatterer Field imports} self pars schema alpha.
Arguments _forward {Scatterer Field imports} self pars schema alpha.
Arguments _lnlike {Scatterer Field imports} self pars data.
Arguments lnlike {Scatterer Field imports} self par_vals data.
Arguments lnposterior {Scatterer Field imports} self par_vals data pixels.
Arguments constraints_pass {Scatterer} self par_vals.
Arguments gaussian_loglik {Scatterer Field imports} noise_sd forward data sd_squares.
Arguments float_square {Scatterer Field imports} x.
Arguments square {Scatterer Field imports} a.
Arguments constant_sd_squared {Scatterer Field imports} noise_sd.
Arguments zero_residual_loglik {Scatterer Field imports} N sigma.

(** ** Construction: a default argument is one object

    [def __init__(self, ..., constraints=[])] evaluates [[]] once, when the
    [def] statement runs; every call that omits [constraints] receives that
    same list object.  List objects live in a heap and are named by their
    address. *)

Section Construction.

Variable Scatterer : Type.

Definition address : Type := nat.

Definition heap : Type := list (list (ScattererConstraint Scatterer)).

Definition allocate (h : heap) (l : list (ScattererConstraint Scatterer))
  : heap * address :=
  (h ++ [l], List.length h).

Definition deref (h : heap) (a : address) : list (ScattererConstraint Scatterer) :=
  nth a h [].

(** [l.append(c)] on the list object at address [a]. *)
Fixpoint append_at (h : heap) (a : address) (c : ScattererConstraint Scatterer)
  : heap :=
  match h, a with
  | [], _ => []
  | l :: rest, O => (l ++ [c]) :: rest
  | l :: rest, S a' => l :: append_at rest a' c
  end.

(** The default lists of the two [__init__] definitions. *)
Record class_defaults : Type := {
  NoiseModel_default_constraints : address;
  AlphaModel_default_constraints : address
}.

(** Running the module's two class statements. *)
Definition run_class_statements (h : heap) : heap * class_defaults :=
  let (h1, a1) := allocate h [] in
  let (h2, a2) := allocate h1 [] in
  (h2, {| NoiseModel_default_constraints := a1;
          AlphaModel_default_constraints := a2 |}).

(** An instance as construction leaves it: its constraints are a reference
    to a list object. *)
Record instance : Type := {
  instance_class : model_class;
  instance_scatterer : ScattererTemplate Scatterer;
  instance_theory : string;
  instance_constraints : address
}.

(** Modelled from the spec: [BaseModel.__init__] (holopy/fitting/model.py) is
    not in this file.  The spec has the instance own "a list of Constraints"
    and names "sharing one default collection across instances created
    without an explicit argument": the instance keeps the list object it is
    handed. *)
Definition BaseModel_init (cls : model_class) (scat : ScattererTemplate Scatterer)
           (theory : string) (constraints : address) : instance :=
  {| instance_class := cls;
     instance_scatterer := scat;
     instance_theory := theory;
     instance_constraints := constraints |}.

(** [NoiseModel.__init__]; [cls] is the class of [self].  The registration of
    [noise_sd] does not touch the constraints. *)
Definition NoiseModel_init (defs : class_defaults) (cls : model_class)
           (scat : ScattererTemplate Scatterer) (theory : option string)
           (constraints : option address) : instance :=
  BaseModel_init cls scat
    (match theory with Some t => t | None => "auto" end)
    (match constraints with
     | Some a => a
     | None => NoiseModel_default_constraints defs
     end).

(** [AlphaModel.__init__]: its own default, handed on to
    [NoiseModel.__init__]. *)
Definition AlphaModel_init (defs : class_defaults)
           (scat : ScattererTemplate Scatterer) (theory : option string)
           (constraints : option address) : instance :=
  NoiseModel_init defs AlphaModelClass scat
    (Some (match theory with Some t => t | None => "auto" end))
    (Some (match constraints with
           | Some a => a
           | None => AlphaModel_default_constraints defs
           end)).

End Construction.

Arguments allocate {Scatterer} h l.
Arguments deref {Scatterer} h a.
Arguments append_at {Scatterer} h a c.
Arguments run_class_statements {Scatterer} h.
Arguments instance_constraints {Scatterer} _.
Arguments NoiseModel_init {Scatterer} defs cls scat theory constraints.
Arguments AlphaModel_init {Scatterer} defs scat theory constraints.

(** ** A small world for the examples *)

Module Sample.

(** A materialized scatterer is the mapping it was made from. *)
Definition scatterer_t : Type := pydict.
Definition field_t : Type := list float.

Definition sphere : ScattererTemplate scatterer_t :=
  {| make_from := fun d => d |}.

(** A prior whose log-density is [-(x - mu)^2 / 2]. *)
Definition quadratic (mu : float) (v : pyval) : float :=
  match v with
  | VFloat x => (- (F64.sq (x - mu) / 2))%float
  | _ => nan
  end.

Definition par_r : PriorParameter := {| name := "r"; lnprob := quadratic 0.5 |}.
Definition par_n : PriorParameter := {| name := "n"; lnprob := quadratic 1.5 |}.
Definition par_alpha : PriorParameter := {| name := "alpha"; lnprob := quadratic 1 |}.

(** The radius is a positive number. *)
Definition positive_radius : ScattererConstraint scatterer_t :=
  {| check := fun s => match dict_get s "r" with
                       | Some (VFloat x) => (0 <? x)%float
                       | _ => false
                       end |}.

(** The scatterer has a radius. *)
Definition has_radius : ScattererConstraint scatterer_t :=
  {| check := fun s => match dict_get s "r" with
                       | Some _ => true
                       | None => false
                       end |}.

Fixpoint dict_remove (d : pydict) (k : string) : pydict :=
  match d with
  | [] => []
  | (k', v) :: rest =>
      if String.eqb k k' then rest else (k', v) :: dict_remove rest k
  end.

(** Modelled from the spec: [BaseModel.get_par] is not in this file.  The
    spec resolves a name as "if present in [pars], use it; else fall back" to
    the value registered at construction, and speaks of extracting it from
    [pars]: the entry is popped. *)
Definition get_par_with (fixed : pydict) (par : string) (pars : pydict)
           (schema : option DataArray) : result (pyval * pydict) :=
  match dict_get pars par with
  | Some v => Ok (v, dict_remove pars par)
  | None =>
      match dict_get fixed par with
      | Some v => Ok (v, pars)
      | None => Raise (AttributeError par)
      end
  end.

(** Modelled from the spec: [BaseModel._optics_scatterer] is not in this
    file.  The spec has it "resolve remaining optical parameters and
    materialize the scatterer": here no optics are registered, and the
    scatterer is made from what is left of [pars]. *)
Definition optics_scatterer_of (pars : pydict) (schema : DataArray)
  : result (pydict * scatterer_t) :=
  Ok ([], make_from sphere pars).

Definition model (cls : model_class) (cs : list (ScattererConstraint scatterer_t))
           (fixed : pydict) : Model scatterer_t :=
  {| class_of := cls;
     scatterer := sphere;
     parameters := [par_r; par_n; par_alpha];
     constraints := cs;
     theory := "auto";
     get_par := get_par_with fixed;
     _optics_scatterer := optics_scatterer_of |}.

(** libm's [log] at the arguments the examples use. *)
Definition log_table (x : float) : float :=
  if (x =? 0x1.921fb54442d18p+2)%float then 0x1.d67f1c864beb4p+0%float   (* log(2*pi) *)
  else if (x =? 1)%float then 0%float
  else if (x =? 0.5)%float then (-0x1.62e42fefa39efp-1)%float
  else if (x =? 0x1.87e92154ef7acp-665)%float then (-0x1.cc845b54b54f2p+8)%float  (* log(1e-200) *)
  else nan.

(** C's [pow] at the arguments the examples use: [pow(0.5, 2)] is 0.25,
    [pow(1e-200, 2)] underflows to 0 and [pow(1e200, 2)] overflows. *)
Definition pow_table (x y : float) : float :=
  if (x =? 0.5)%float && (y =? 2)%float then 0.25%float
  else if (x =? 0x1.87e92154ef7acp-665)%float && (y =? 2)%float then 0%float
  else if (x =? 0x1.4e718d7d7625ap+664)%float && (y =? 2)%float then F64.inf
  else nan.

(** A sum from left to right, as numpy adds up a short array. *)
Definition sum_in_order (xs : list float) : float :=
  match xs with
  | [] => 0%float
  | x :: rest => fold_left PrimFloat.add rest x
  end.

Definition mean_in_order (xs : list float) : float :=
  (sum_in_order xs / F64.of_nat (List.length xs))%float.

(** Modelled from the spec: [make_subset_data] "restricts observed data to
    a pixel index subset". *)
Definition select_pixels (data : DataArray) (pixels : list nat) : DataArray :=
  {| values := map (fun i => nth i (values data) nan) pixels;
     attrs := attrs data |}.

(** A solver that predicts the observed hologram exactly, and one that
    always fails. *)
Definition exact_solver (schema : DataArray) (s : scatterer_t) (theory : string)
           (scaling : pyval) (optics : pydict) : result (list float) :=
  Ok (values schema).

Definition failing_solver (schema : DataArray) (s : scatterer_t) (theory : string)
           (scaling : pyval) (optics : pydict) : result (list float) :=
  Raise MultisphereFailure.

(** The imports of the examples.  [dict_to_array] leaves a value that is
    already a number or an array as it is. *)
Definition world (solver : DataArray -> scatterer_t -> string -> pyval -> pydict
                           -> result (list float))
  : Imports scatterer_t field_t :=
  {| libm_pow := pow_table;
     np_log := log_table;
     np_mean := mean_in_order;
     np_sum := sum_in_order;
     calc_field := fun _ _ _ _ => Raise InvalidScatterer;
     calc_holo := solver;
     make_subset_data := select_pixels;
     dict_to_array := fun _ v => Ok v |}.

Definition two_pixels : DataArray := {| values := [1%float; 0.5%float]; attrs := [] |}.
Definition one_pixel : DataArray := {| values := [1%float]; attrs := [] |}.
Definition no_pixel : DataArray := {| values := []; attrs := [] |}.

Definition good_values : list pyval := [VFloat 0.5; VFloat 1.5; VFloat 1].
Definition bad_values : list pyval := [VFloat (-1); VFloat 1.5; VFloat 1].
Definition good_dict : pydict :=
  [("alpha", VFloat 1); ("n", VFloat 1.5); ("r", VFloat 0.5)].

Definition tiny_sd : float := 0x1.87e92154ef7acp-665%float.   (* 1e-200 *)

(** AlphaModels with [noise_sd] fixed to 0.5 at construction, which
    [ensure_array] stores as a one-element array. *)
Definition guarded : Model scatterer_t :=
  model AlphaModelClass [positive_radius] [("noise_sd", VArr [0.5%float])].

Definition lenient : Model scatterer_t :=
  model AlphaModelClass [has_radius] [("noise_sd", VArr [0.5%float])].

Definition unconstrained : Model scatterer_t :=
  model AlphaModelClass [] [("noise_sd", VArr [0.5%float])].

(** What [_pack] makes of [good_values], and what is left of it once
    ['alpha'] is popped. *)
Definition good_pars : pydict :=
  [("r", VFloat 0.5); ("n", VFloat 1.5); ("alpha", VFloat 1)].

Definition sphere_pars : pydict :=
  [("r", VFloat 0.5); ("n", VFloat 1.5)].

(** [good_pars] with a free [noise_sd] of 0.5, and of 1e200, as Python
    floats. *)
Definition half_sd_pars : pydict :=
  [("r", VFloat 0.5); ("n", VFloat 1.5); ("alpha", VFloat 1);
   ("noise_sd", VFloat 0.5)].

Definition huge_sd : float := 0x1.4e718d7d7625ap+664%float.   (* 1e200 *)

Definition huge_sd_pars : pydict :=
  [("r", VFloat 0.5); ("n", VFloat 1.5); ("alpha", VFloat 1);
   ("noise_sd", VFloat huge_sd)].

(** [good_pars] with a free [noise_sd] of 1e-200. *)
Definition tiny_sd_pars : pydict :=
  [("r", VFloat 0.5); ("n", VFloat 1.5); ("alpha", VFloat 1);
   ("noise_sd", VFloat tiny_sd)].

End Sample.

(** ** Further observations on a run *)

(** Not [+inf] and not NaN: a finite number or [-inf]. *)
Definition below_plus_inf (x : float) : bool :=
  match Prim2SF x with
  | S754_zero _ | S754_finite _ _ _ | S754_infinity true => true
  | _ => false
  end.

Definition is_field_call (e : event) : bool :=
  match e with EvCalcField _ => true | _ => false end.

(** The data the likelihood is evaluated on. *)
Definition likelihood_data {Scatterer Field : Type} {imports : Imports Scatterer Field}
           (data : DataArray) (pixels : option (list nat)) : DataArray :=
  match pixels with
  | Some px => make_subset_data data px
  | None => data
  end.

(** The pair of the last parameter named [k], if any. *)
Definition last_named (k : string) (pairs : list (PriorParameter * pyval))
  : option (PriorParameter * pyval) :=
  find (fun pv => String.eqb k (name (fst pv))) (rev pairs).

(** [-N/2*log(2*pi) - N*mean(log(noise_sd))] for a per-pixel [noise_sd]. *)
Definition zero_residual_loglik_per_pixel {Scatterer Field : Type}
           {imports : Imports Scatterer Field} (N : nat) (sds : list float) : float :=
  (neg_half N * np_log (2 * F64.np_pi)
   - F64.of_nat N * np_mean (map np_log sds))%float.

(** ** More of the sample world *)

Module MoreSamples.

Import Sample.

(** A prior supported on [x > lo]: 0 inside, [-inf] outside. *)
Definition supported_above (lo : float) (v : pyval) : float :=
  match v with
  | VFloat x => if (lo <? x)%float then 0%float else F64.ninf
  | _ => nan
  end.

Definition par_r_positive : PriorParameter :=
  {| name := "r"; lnprob := supported_above 0 |}.

(** An AlphaModel whose radius prior has support [r > 0], with no
    constraint. *)
Definition bounded : Model scatterer_t :=
  {| class_of := AlphaModelClass;
     scatterer := sphere;
     parameters := [par_n; par_r_positive; par_alpha];
     constraints := [];
     theory := "auto";
     get_par := get_par_with [("noise_sd", VArr [0.5%float])];
     _optics_scatterer := optics_scatterer_of |}.

Definition outside_support : list pyval := [VFloat 1.5; VFloat (-1); VFloat 1].

(** Three constraints, the second of which rejects a negative radius. *)
Definition thrice_guarded : Model scatterer_t :=
  model AlphaModelClass [has_radius; positive_radius; has_radius]
        [("noise_sd", VArr [0.5%float])].

(** A dict that has no entry for [n]. *)
Definition dict_without_n : pydict := [("r", VFloat 0.5); ("alpha", VFloat 1)].

(** A solver that fails with an error that is not a scattering failure. *)
Definition crashing_solver (schema : DataArray) (s : scatterer_t) (theory : string)
           (scaling : pyval) (optics : pydict) : result (list float) :=
  Raise (OtherError "solver crashed").

(** Imports whose two solvers both fail that way. *)
Definition crashing_world : Imports scatterer_t field_t :=
  {| libm_pow := pow_table;
     np_log := log_table;
     np_mean := mean_in_order;
     np_sum := sum_in_order;
     calc_field := fun _ _ _ _ => Raise (OtherError "solver crashed");
     calc_holo := crashing_solver;
     make_subset_data := select_pixels;
     dict_to_array := fun _ v => Ok v |}.

(** A model whose scatterer cannot be made. *)
Definition unbuildable : Model scatterer_t :=
  {| class_of := AlphaModelClass;
     scatterer := sphere;
     parameters := [par_r; par_n; par_alpha];
     constraints := [];
     theory := "auto";
     get_par := get_par_with [("noise_sd", VArr [0.5%float])];
     _optics_scatterer := fun _ _ => Raise InvalidScatterer |}.

(** A model with no [noise_sd] registered. *)
Definition noiseless : Model scatterer_t := model AlphaModelClass [] [].

(** A model with a per-pixel [noise_sd] for two pixels. *)
Definition per_pixel : Model scatterer_t :=
  model AlphaModelClass [] [("noise_sd", VArr [0.5%float; 1%float])].

Definition nan_values : list pyval := [VFloat nan; VFloat 1.5; VFloat 1].

End MoreSamples.

(** ** Properties *)

(** ** IEEE binary64 facts *)

Module F64Facts.

Lemma via_spec (x y : float) : Prim2SF x = Prim2SF y -> x = y.
Proof.
  intro H. rewrite <- (SF2Prim_Prim2SF x), <- (SF2Prim_Prim2SF y).
  now rewrite H.
Qed.

Lemma spec_zero : Prim2SF 0%float = S754_zero false.
Proof. reflexivity. Qed.

Lemma spec_inf : Prim2SF F64.inf = S754_infinity false.
Proof. reflexivity. Qed.

Lemma spec_ninf : Prim2SF F64.ninf = S754_infinity true.
Proof. reflexivity. Qed.

Lemma spec_nan : Prim2SF nan = S754_nan.
Proof. reflexivity. Qed.

Lemma sub_zero_r (x : float) : (x - 0)%float = x.
Proof.
  apply via_spec. rewrite FloatAxioms.sub_spec, spec_zero.
  destruct (Prim2SF x) as [[]| | |]; reflexivity.
Qed.

Lemma sub_self (x : float) : F64.finite x = true -> (x - x)%float = 0%float.
Proof.
  unfold F64.finite. intro H. apply via_spec.
  rewrite FloatAxioms.sub_spec, spec_zero.
  destruct (Prim2SF x) as [[]|[]| |s m e]; try discriminate; try reflexivity.
  unfold SF64sub, SFsub. now rewrite Z.sub_diag.
Qed.

Lemma sub_nan_r (x : float) : (x - nan)%float = nan.
Proof.
  apply via_spec. rewrite FloatAxioms.sub_spec, spec_nan.
  destruct (Prim2SF x) as [[]|[]| |]; reflexivity.
Qed.

Lemma finite_sub_inf (x : float) :
  F64.finite x = true -> (x - F64.inf)%float = F64.ninf.
Proof.
  unfold F64.finite. intro H. apply via_spec.
  rewrite FloatAxioms.sub_spec, spec_inf, spec_ninf.
  destruct (Prim2SF x) as [[]|[]| |]; try discriminate; reflexivity.
Qed.

Lemma ninf_sub_finite (x : float) :
  F64.finite x = true -> (F64.ninf - x)%float = F64.ninf.
Proof.
  unfold F64.finite. intro H. apply via_spec.
  rewrite FloatAxioms.sub_spec, spec_ninf.
  destruct (Prim2SF x) as [[]|[]| |]; try discriminate; reflexivity.
Qed.

Lemma sq_ninf : F64.sq F64.ninf = F64.inf.
Proof. reflexivity. Qed.

Lemma sq_zero : F64.sq 0%float = 0%float.
Proof. reflexivity. Qed.

Lemma inf_div_pos_finite (y : float) :
  F64.pos_finite y = true -> (F64.inf / y)%float = F64.inf.
Proof.
  unfold F64.pos_finite. intro H. apply via_spec.
  rewrite FloatAxioms.div_spec, spec_inf.
  destruct (Prim2SF y) as [[]|[]| |[]]; try discriminate; reflexivity.
Qed.

Lemma zero_div_positive (y : float) :
  F64.positive y = true -> (0 / y)%float = 0%float.
Proof.
  unfold F64.positive. intro H. apply via_spec.
  rewrite FloatAxioms.div_spec, spec_zero.
  destruct (Prim2SF y) as [[]|[]| |[]]; try discriminate; reflexivity.
Qed.

(** [x == -np.inf] holds only for [-F64.inf] itself. *)
Lemma eqb_ninf (x : float) : (x =? F64.ninf)%float = true -> x = F64.ninf.
Proof.
  rewrite FloatAxioms.eqb_spec, spec_ninf. intro H. apply via_spec. rewrite spec_ninf.
  unfold SFeqb, SFcompare in H.
  destruct (Prim2SF x) as [[]|[]| |[]]; try discriminate; reflexivity.
Qed.

(** [x > -np.inf] excludes [x == -np.inf]. *)
Lemma gt_ninf_neq (x : float) :
  (F64.ninf <? x)%float = true -> (x =? F64.ninf)%float = false.
Proof.
  rewrite FloatAxioms.ltb_spec, FloatAxioms.eqb_spec, spec_ninf.
  unfold SFltb, SFeqb, SFcompare.
  destruct (Prim2SF x) as [[]|[]| |[]]; try discriminate; reflexivity.
Qed.

Lemma eqb_ninf_refl : (F64.ninf =? F64.ninf)%float = true.
Proof. reflexivity. Qed.

End F64Facts.

Section Properties.

Variables Scatterer Field : Type.
Context {imports : Imports Scatterer Field}.

Let Model := Model Scatterer.
Let ScattererConstraint := ScattererConstraint Scatterer.

Implicit Types (self : Model) (par_vals : ParVals) (data : DataArray).

(** *** The monad *)

Lemma bind_ok {A B} (t : list event) (a : A) (k : A -> M B) :
  bind (t, Ok a) k = (t ++ trace (k a), outcome (k a)).
Proof. unfold bind, trace, outcome. now destruct (k a). Qed.

Lemma bind_raise {A B} (t : list event) (e : exn) (k : A -> M B) :
  bind (t, Raise e) k = (t, Raise e).
Proof. reflexivity. Qed.

Lemma bind_ret {A B} (a : A) (k : A -> M B) : bind (ret a) k = k a.
Proof. unfold ret. rewrite bind_ok. simpl. now destruct (k a). Qed.

Lemma surjective_run {A} (m : M A) : m = (trace m, outcome m).
Proof. now destruct m. Qed.

(** *** The constraint loop *)

Lemma constraints_loop_spec self par_vals (cs : list ScattererConstraint) :
  exists k,
    constraints_loop self par_vals cs =
      (repeat (EvCheck (_pack self par_vals)) k,
       Ok (forallb (fun c => check c (make_from (scatterer self) (_pack self par_vals))) cs)).
Proof.
  induction cs as [|c cs [k IH]]; cbn [constraints_loop forallb].
  - now exists 0.
  - unfold tell. rewrite bind_ok.
    destruct (check c _); cbn [andb].
    + rewrite IH. now exists (S k).
    + now exists 1.
Qed.

Lemma forallb_false_of_member {A} (f : A -> bool) (xs : list A) (x : A) :
  In x xs -> f x = false -> forallb f xs = false.
Proof.
  intros Hin Hx. destruct (forallb f xs) eqn:E; [|reflexivity].
  rewrite forallb_forall in E. rewrite (E x Hin) in Hx. discriminate.
Qed.

Lemma Forall_repeat {A} (P : A -> Prop) (x : A) (k : nat) :
  P x -> Forall P (repeat x k).
Proof. intro H. induction k; simpl; auto. Qed.

(** C1: when some registered constraint rejects the scatterer made from
    the packed values, [lnprior] returns exactly negative infinity, and no
    parameter's [lnprob] has been called. *)
Theorem lnprior_rejects_on_failed_constraint self par_vals
        (c : ScattererConstraint) :
  In c (constraints self) ->
  check c (make_from (scatterer self) (_pack self par_vals)) = false ->
  outcome (lnprior self par_vals) = Ok F64.ninf /\
  Forall (fun e => is_lnprob_call e = false) (trace (lnprior self par_vals)).
Proof.
  intros Hin Hc. unfold lnprior.
  destruct (constraints_loop_spec self par_vals (constraints self)) as [k ->].
  rewrite (forallb_false_of_member _ _ c Hin Hc), bind_ok. simpl.
  split; [reflexivity|].
  rewrite app_nil_r. now apply Forall_repeat.
Qed.

(** *** The sum of the priors *)

Lemma comprehension_positional (pairs : list (PriorParameter * pyval)) :
  comprehension (fun pv => call_lnprob (fst pv) (snd pv)) pairs =
    (map lnprob_call_of pairs, Ok (map lnprob_of pairs)).
Proof.
  induction pairs as [|pv pairs IH]; cbn [comprehension map].
  - reflexivity.
  - rewrite IH. cbn. now rewrite app_nil_r.
Qed.

Lemma comprehension_keyed (d : pydict) (ps : list PriorParameter)
      (vs : list pyval) :
  Forall2 (fun p v => dict_get d (name p) = Some v) ps vs ->
  comprehension (fun p => v <- lift (subscript d (name p));; call_lnprob p v) ps =
    (map lnprob_call_of (combine ps vs), Ok (map lnprob_of (combine ps vs))).
Proof.
  induction 1 as [|p v ps vs Hp _ IH]; cbn [comprehension combine map].
  - reflexivity.
  - rewrite IH. unfold subscript. rewrite Hp. cbn. now rewrite app_nil_r.
Qed.

Lemma lnprior_positional self (vs : list pyval) :
  constraints_pass self (PSeq vs) = true ->
  exists k,
    lnprior self (PSeq vs) =
      (repeat (EvCheck (_pack self (PSeq vs))) k
         ++ map lnprob_call_of (combine (parameters self) vs),
       Ok (py_sum (map lnprob_of (combine (parameters self) vs)))).
Proof.
  intro Hpass. unfold lnprior.
  destruct (constraints_loop_spec self (PSeq vs) (constraints self)) as [k ->].
  unfold constraints_pass in Hpass. rewrite Hpass, bind_ok.
  exists k. cbn [trace outcome fst snd].
  rewrite comprehension_positional, bind_ok. cbn. now rewrite app_nil_r.
Qed.

Lemma lnprior_keyed self (d : pydict) (vs : list pyval) :
  Forall2 (fun p v => dict_get d (name p) = Some v) (parameters self) vs ->
  constraints_pass self (PDict d) = true ->
  exists k,
    lnprior self (PDict d) =
      (repeat (EvCheck (_pack self (PDict d))) k
         ++ map lnprob_call_of (combine (parameters self) vs),
       Ok (py_sum (map lnprob_of (combine (parameters self) vs)))).
Proof.
  intros Hd Hpass. unfold lnprior.
  destruct (constraints_loop_spec self (PDict d) (constraints self)) as [k ->].
  unfold constraints_pass in Hpass. rewrite Hpass, bind_ok.
  exists k. cbn [trace outcome fst snd].
  rewrite (comprehension_keyed d _ vs Hd), bind_ok. cbn. now rewrite app_nil_r.
Qed.

(** When every check the loop runs accepts, [lnprior] is the sum of each
    parameter's [lnprob] at its value, for a dict keyed by parameter name
    and for a positional sequence in parameter order; the two then agree
    when the sequence lists the dict's values.  For a dict the checks run on
    [_pack] of the dict, which holds its keys. *)
Lemma lnprior_is_sum_of_lnprob self (d : pydict) (vs : list pyval) :
  Forall2 (fun p v => dict_get d (name p) = Some v) (parameters self) vs ->
  constraints_pass self (PDict d) = true ->
  constraints_pass self (PSeq vs) = true ->
  outcome (lnprior self (PDict d)) =
    Ok (py_sum (map lnprob_of (combine (parameters self) vs))) /\
  outcome (lnprior self (PSeq vs)) =
    Ok (py_sum (map lnprob_of (combine (parameters self) vs))) /\
  outcome (lnprior self (PDict d)) = outcome (lnprior self (PSeq vs)).
Proof.
  intros Hd Hpd Hps.
  destruct (lnprior_keyed self d vs Hd Hpd) as [k1 E1].
  destruct (lnprior_positional self vs Hps) as [k2 E2].
  rewrite E1, E2. cbn [outcome snd]. auto.
Qed.

(** *** Packing *)

Lemma dict_get_set (d : pydict) (k k' : string) (v : pyval) :
  dict_get (dict_set d k' v) k =
    if String.eqb k k' then Some v else dict_get d k.
Proof.
  induction d as [|[k0 v0] d IH]; cbn [dict_set dict_get].
  - reflexivity.
  - destruct (String.eqb k' k0) eqn:E'; cbn [dict_get].
    + apply String.eqb_eq in E'. subst k0.
      now destruct (String.eqb k k').
    + rewrite IH. destruct (String.eqb k k0) eqn:E0; [|reflexivity].
      apply String.eqb_eq in E0. subst k0.
      destruct (String.eqb k k') eqn:E; [|reflexivity].
      apply String.eqb_eq in E. subst k'.
      rewrite String.eqb_refl in E'. discriminate.
Qed.

Lemma pack_fold_bound (pairs : list (PriorParameter * pyval)) (d : pydict)
      (k : string) :
  dict_get (fold_left (fun d pv => dict_set d (name (fst pv)) (snd pv)) pairs d) k
    <> None <->
  dict_get d k <> None \/ In k (map (fun pv => name (fst pv)) pairs).
Proof.
  revert d. induction pairs as [|[p v] pairs IH]; intro d; cbn [fold_left map In].
  - tauto.
  - rewrite IH, dict_get_set. cbn [fst snd].
    destruct (String.eqb k (name p)) eqn:E.
    + apply String.eqb_eq in E. subst k. split; intros _; [auto|left; discriminate].
    + apply String.eqb_neq in E. intuition congruence.
Qed.

Lemma combine_fst_firstn {A B} (xs : list A) (ys : list B) :
  map fst (combine xs ys) = firstn (List.length ys) xs.
Proof.
  revert ys. induction xs as [|x xs IH]; intros [|y ys]; cbn;
    try reflexivity.
  f_equal. apply IH.
Qed.

Lemma combine_firstn {A B} (xs : list A) (ys : list B) :
  combine (firstn (List.length ys) xs) ys = combine xs ys.
Proof.
  revert ys. induction xs as [|x xs IH]; intros [|y ys]; cbn;
    try reflexivity.
  f_equal. apply IH.
Qed.

Lemma pack_keys self (vs : list pyval) (k : string) :
  dict_get (_pack self (PSeq vs)) k <> None <->
  In k (map name (firstn (List.length vs) (parameters self))).
Proof.
  unfold _pack, pack_pairs. cbn [iterate]. rewrite pack_fold_bound.
  cbn [dict_get].
  rewrite <- (map_map fst name), combine_fst_firstn.
  split; [intros [H|H]; [congruence|exact H] | auto].
Qed.

(** C10: with no constraint registered, a positional sequence shorter
    than the parameter list is silently truncated: [lnprior] returns,
    without error, the sum of [lnprob] over the first [len(values)]
    parameters only, and [_pack] has exactly their names as keys. *)
Theorem lnprior_truncates_short_sequence self (vs : list pyval) :
  List.length vs < List.length (parameters self) ->
  constraints self = [] ->
  lnprior self (PSeq vs) =
    (map lnprob_call_of (combine (firstn (List.length vs) (parameters self)) vs),
     Ok (py_sum (map lnprob_of
                   (combine (firstn (List.length vs) (parameters self)) vs)))) /\
  List.length (combine (firstn (List.length vs) (parameters self)) vs)
    = List.length vs /\
  forall k, dict_get (_pack self (PSeq vs)) k <> None <->
            In k (map name (firstn (List.length vs) (parameters self))).
Proof.
  intros Hlen Hcs. split; [|split].
  - unfold lnprior. rewrite Hcs. cbn [constraints_loop].
    rewrite bind_ret, comprehension_positional, bind_ok, combine_firstn.
    cbn. now rewrite app_nil_r.
  - rewrite length_combine, length_firstn. lia.
  - apply pack_keys.
Qed.

(** *** What a run calls *)

Lemma trace_bind {A B} (P : event -> Prop) (m : M A) (k : A -> M B) :
  Forall P (trace m) -> (forall a, Forall P (trace (k a))) ->
  Forall P (trace (bind m k)).
Proof.
  destruct m as [t [a|e]]; cbn; intros Ht Hk; [|exact Ht].
  specialize (Hk a). destruct (k a) as [t' r]. cbn in *.
  apply Forall_app. now split.
Qed.

Lemma trace_silent {A} (P : event -> Prop) (r : result A) :
  Forall P (trace (lift r)).
Proof. constructor. Qed.

Lemma trace_tell (P : event -> Prop) (e : event) :
  P e -> Forall P (trace (tell e)).
Proof. intro H. cbn. auto. Qed.

Lemma trace_comprehension {A B} (P : event -> Prop) (f : A -> M B)
      (xs : list A) :
  (forall x, Forall P (trace (f x))) ->
  Forall P (trace (comprehension f xs)).
Proof.
  intro Hf. induction xs as [|x xs IH]; cbn [comprehension].
  - constructor.
  - apply trace_bind; [apply Hf|]. intro y.
    apply trace_bind; [exact IH|]. intro ys. constructor.
Qed.

Lemma trace_catch {A B} (P : event -> Prop) (r : result A) (ok : A -> B)
      (sentinel : B) :
  Forall P (trace (catch_scattering_failure r ok sentinel)).
Proof.
  destruct r as [a|e]; cbn; [constructor|].
  destruct (is_scattering_failure e); constructor.
Qed.

(** [lnprior] only calls constraints and priors. *)
Lemma lnprior_trace (P : event -> Prop) self par_vals :
  (forall d, P (EvCheck d)) -> (forall n v, P (EvLnprob n v)) ->
  Forall P (trace (lnprior self par_vals)).
Proof.
  intros Hc Hl. unfold lnprior.
  destruct (constraints_loop_spec self par_vals (constraints self)) as [k ->].
  apply trace_bind; [now apply Forall_repeat|].
  assert (Hcall : forall p v, Forall P (trace (call_lnprob p v))).
  { intros p v. unfold call_lnprob.
    apply trace_bind; [now apply trace_tell|]. intros _. constructor. }
  intros [|]; [|constructor].
  destruct par_vals as [d|vs].
  - apply trace_bind; [|intro; constructor].
    apply trace_comprehension. intro p.
    apply trace_bind; [apply trace_silent|]. intro v. apply Hcall.
  - apply trace_bind; [|intro; constructor].
    apply trace_comprehension. intro pv. apply Hcall.
Qed.

(** The likelihood only calls the hologram solver. *)
Lemma forward_trace (P : event -> Prop) self pars schema alpha :
  (forall s a, P (EvCalcHolo s a)) ->
  Forall P (trace (_forward self pars schema alpha)).
Proof.
  intro Hh. unfold _forward, AlphaModel_forward.
  destruct (class_of self); [constructor|].
  apply trace_bind.
  { destruct alpha; [constructor|apply trace_silent]. }
  intro ap. apply trace_bind; [apply trace_silent|]. intro os.
  apply trace_bind; [now apply trace_tell|]. intros _. apply trace_catch.
Qed.

Lemma lnlike_trace (P : event -> Prop) self par_vals data :
  (forall s a, P (EvCalcHolo s a)) ->
  Forall P (trace (lnlike self par_vals data)).
Proof.
  intro Hh. unfold lnlike, _lnlike.
  repeat first
    [ apply trace_silent
    | now apply forward_trace
    | apply trace_bind; [|intro]
    | constructor ].
Qed.

(** *** The posterior *)

Lemma lnposterior_rejected self par_vals data pixels (lp : float) :
  outcome (lnprior self par_vals) = Ok lp ->
  (lp =? F64.ninf)%float = true ->
  lnposterior self par_vals data pixels = lnprior self par_vals.
Proof.
  intros Hlp Heq. unfold lnposterior.
  rewrite (surjective_run (lnprior self par_vals)), Hlp, bind_ok, Heq.
  cbn. now rewrite app_nil_r.
Qed.

Lemma lnposterior_accepted self par_vals data pixels (lp : float) :
  outcome (lnprior self par_vals) = Ok lp ->
  (lp =? F64.ninf)%float = false ->
  let data' := match pixels with
               | Some px => make_subset_data data px
               | None => data
               end in
  lnposterior self par_vals data pixels =
    (trace (lnprior self par_vals)
       ++ match pixels with Some px => [EvSubset data px] | None => [] end
       ++ trace (lnlike self par_vals data'),
     add_outcome lp (outcome (lnlike self par_vals data'))).
Proof.
  intros Hlp Hne data'. unfold lnposterior.
  rewrite (surjective_run (lnprior self par_vals)), Hlp, bind_ok, Hne.
  destruct pixels as [px|]; subst data'; cbn [trace outcome fst snd].
  - cbn -[lnlike].
    destruct (lnlike self par_vals (make_subset_data data px)) as [t [ll|e]];
      cbn; now rewrite ?app_nil_r.
  - cbn -[lnlike].
    destruct (lnlike self par_vals data) as [t [ll|e]];
      cbn; now rewrite ?app_nil_r.
Qed.

(** C2: when [lnprior] is negative infinity, [lnposterior] returns
    negative infinity and calls nothing after [lnprior]: the forward solver
    is never invoked. *)
Theorem lnposterior_skips_likelihood_when_prior_rejects
        self par_vals data pixels (lp : float) :
  outcome (lnprior self par_vals) = Ok lp ->
  (lp =? F64.ninf)%float = true ->
  outcome (lnposterior self par_vals data pixels) = Ok F64.ninf /\
  trace (lnposterior self par_vals data pixels) = trace (lnprior self par_vals) /\
  Forall (fun e => is_solver_call e = false)
         (trace (lnposterior self par_vals data pixels)).
Proof.
  intros Hlp Heq.
  rewrite (lnposterior_rejected self par_vals data pixels lp Hlp Heq).
  split; [|split].
  - rewrite Hlp. f_equal. now apply F64Facts.eqb_ninf.
  - reflexivity.
  - now apply lnprior_trace.
Qed.

(** C5: without [pixels], when [lnprior] is greater than negative
    infinity, [lnposterior] is [lnprior + lnlike] on the same data. *)
Theorem lnposterior_is_prior_plus_likelihood self par_vals data (lp : float) :
  outcome (lnprior self par_vals) = Ok lp ->
  (F64.ninf <? lp)%float = true ->
  outcome (lnposterior self par_vals data None) =
    add_outcome lp (outcome (lnlike self par_vals data)).
Proof.
  intros Hlp Hgt.
  now rewrite (lnposterior_accepted self par_vals data None lp Hlp
                 (F64Facts.gt_ninf_neq lp Hgt)).
Qed.

Lemma subset_calls_app (t1 t2 : list event) :
  subset_calls (t1 ++ t2) = subset_calls t1 ++ subset_calls t2.
Proof.
  induction t1 as [|e t1 IH]; cbn; [reflexivity|].
  rewrite IH. now destruct (subset_call e).
Qed.

Lemma subset_calls_none (t : list event) :
  Forall (fun e => subset_call e = None) t -> subset_calls t = [].
Proof. induction 1 as [|e t He _ IH]; cbn; [reflexivity|]. now rewrite He. Qed.

(** C8: when [lnprior] is greater than negative infinity and [pixels]
    is given, [make_subset_data] is called once, with the data and exactly
    that pixel set, and the likelihood is evaluated on its result: the
    posterior is [lnprior + lnlike(par_vals, subset)]. *)
Theorem lnposterior_evaluates_likelihood_on_subset
        self par_vals data (px : list nat) (lp : float) :
  outcome (lnprior self par_vals) = Ok lp ->
  (F64.ninf <? lp)%float = true ->
  outcome (lnposterior self par_vals data (Some px)) =
    add_outcome lp (outcome (lnlike self par_vals (make_subset_data data px))) /\
  trace (lnposterior self par_vals data (Some px)) =
    trace (lnprior self par_vals) ++ [EvSubset data px]
      ++ trace (lnlike self par_vals (make_subset_data data px)) /\
  subset_calls (trace (lnposterior self par_vals data (Some px))) = [(data, px)].
Proof.
  intros Hlp Hgt.
  rewrite (lnposterior_accepted self par_vals data (Some px) lp Hlp
             (F64Facts.gt_ninf_neq lp Hgt)).
  cbn [trace outcome fst snd]. split; [reflexivity|split; [reflexivity|]].
  rewrite !subset_calls_app.
  rewrite (subset_calls_none (trace (lnprior self par_vals))),
          (subset_calls_none (trace (lnlike _ _ _))).
  - reflexivity.
  - now apply lnlike_trace.
  - now apply lnprior_trace.
Qed.

(** *** The forward model and scattering failures *)

Lemma outcome_bind {A B} (m : M A) (k : A -> M B) (a : A) :
  outcome m = Ok a -> outcome (bind m k) = outcome (k a).
Proof.
  destruct m as [t r]. cbn. intros ->. cbn. now destruct (k a).
Qed.

Lemma outcome_tell {B} (e : event) (k : unit -> M B) :
  outcome (bind (tell e) k) = outcome (k tt).
Proof. now apply outcome_bind. Qed.

Lemma catch_run {A B} (r : result A) (ok : A -> B) (sentinel : B) :
  catch_scattering_failure r ok sentinel = ([], caught r ok sentinel).
Proof. destruct r as [a|e]; cbn; [reflexivity|]. now destruct (is_scattering_failure e). Qed.

Lemma fields_run self pars schema (os : pydict * Scatterer) :
  _optics_scatterer self pars schema = Ok os ->
  _fields self pars schema =
    ([EvCalcField schema],
     caught (calc_field schema (snd os) (theory self) (fst os)) inl (inr F64.ninf)).
Proof.
  intro Hos. unfold _fields. rewrite Hos.
  cbn -[catch_scattering_failure]. now rewrite catch_run.
Qed.

Lemma forward_run_explicit self pars schema (a : pyval) (os : pydict * Scatterer) :
  _optics_scatterer self pars schema = Ok os ->
  AlphaModel_forward self pars schema (Some a) =
    ([EvCalcHolo schema a],
     caught (calc_holo schema (snd os) (theory self) a (fst os))
            VArr (VFloat F64.ninf)).
Proof.
  intro Hos. unfold AlphaModel_forward. rewrite bind_ret. cbn [fst snd].
  rewrite Hos. cbn -[catch_scattering_failure]. now rewrite catch_run.
Qed.

Lemma forward_run_from_pars self pars schema (ap : pyval * pydict)
      (os : pydict * Scatterer) :
  get_par self "alpha" pars None = Ok ap ->
  _optics_scatterer self (snd ap) schema = Ok os ->
  AlphaModel_forward self pars schema None =
    ([EvCalcHolo schema (fst ap)],
     caught (calc_holo schema (snd os) (theory self) (fst ap) (fst os))
            VArr (VFloat F64.ninf)).
Proof.
  intros Hap Hos. unfold AlphaModel_forward. rewrite Hap.
  unfold lift at 1. rewrite bind_ok. cbn [trace outcome fst snd app].
  rewrite Hos. cbn -[catch_scattering_failure]. now rewrite catch_run.
Qed.

(** C7: an [alpha] passed explicitly is the scaling handed to
    [calc_holo], whatever ['alpha'] entry the parameter mapping holds; the
    mapping is passed on untouched and [get_par] plays no part. *)
Theorem forward_explicit_alpha_overrides_pars
        self pars schema (a a' : pyval) (os : pydict * Scatterer) :
  class_of self = AlphaModelClass ->
  dict_get pars "alpha" = Some a' ->
  _optics_scatterer self pars schema = Ok os ->
  _forward self pars schema (Some a) =
    ([EvCalcHolo schema a],
     caught (calc_holo schema (snd os) (theory self) a (fst os))
            VArr (VFloat F64.ninf)).
Proof.
  intros Hcls _ Hos. unfold _forward. rewrite Hcls.
  now apply forward_run_explicit.
Qed.

(** *** The Gaussian log-likelihood *)

Lemma divide_by_constant (num : list float) (den : pyval) (d : float) :
  den = VFloat d \/ den = VArr [d] ->
  broadcast PrimFloat.div (VArr num) den =
    Ok (VArr (map (fun x => x / d)%float num)).
Proof.
  intros [-> | ->]; [reflexivity|].
  destruct num as [|x [|y num]]; reflexivity.
Qed.

Lemma constant_sd_doubled_square (noise_sd : pyval) (sigma s2 : float) :
  constant_sd noise_sd sigma ->
  constant_sd_squared noise_sd = Ok s2 ->
  exists sd2 den,
    square noise_sd = Ok sd2 /\
    broadcast PrimFloat.mul (VFloat 2%float) sd2 = Ok den /\
    (den = VFloat (2 * s2)%float \/ den = VArr [(2 * s2)%float]) /\
    ensure_array noise_sd = Ok [sigma].
Proof.
  intros [-> | ->] Hsq; cbn [constant_sd_squared] in Hsq.
  - exists (VFloat s2), (VFloat (2 * s2)%float).
    cbn [square]. rewrite Hsq. cbn. auto.
  - injection Hsq as <-. cbn. eauto 8.
Qed.

Lemma constant_sd_raising_is_a_float (noise_sd : pyval) (sigma : float) (e : exn) :
  constant_sd noise_sd sigma ->
  constant_sd_squared noise_sd = Raise e ->
  square noise_sd = Raise e /\ ensure_array noise_sd = Ok [sigma].
Proof.
  intros [-> | ->] Hsq; cbn [constant_sd_squared] in Hsq; [|discriminate].
  cbn [square]. now rewrite Hsq.
Qed.

(** [_lnlike] once the parameters are resolved, for a constant [noise_sd]
    of square [s2] and a residual array [resid = forward - data]. *)
Lemma lnlike_constant_sd self pars data (rp : pyval * pydict)
      (noise_sd fwd : pyval) (sigma s2 : float) (resid : list float) :
  get_par self "noise_sd" pars (Some data) = Ok rp ->
  dict_to_array data (fst rp) = Ok noise_sd ->
  constant_sd noise_sd sigma ->
  constant_sd_squared noise_sd = Ok s2 ->
  outcome (_forward self (snd rp) data None) = Ok fwd ->
  broadcast PrimFloat.sub fwd (VArr (values data)) = Ok (VArr resid) ->
  outcome (_lnlike self pars data) =
    Ok (neg_half (size data) * np_log (2 * F64.np_pi)
        - F64.of_nat (size data) * np_mean [np_log sigma]
        - np_sum (map (fun r => F64.sq r / (2 * s2)) resid))%float.
Proof.
  intros Hgp Hda Hsd Hs2 Hfw Hres.
  destruct (constant_sd_doubled_square noise_sd sigma s2 Hsd Hs2)
    as (sd2 & den & Hsq & Hden & Hd & Hens).
  unfold _lnlike.
  rewrite (outcome_bind _ _ rp) by (now rewrite Hgp).
  rewrite (outcome_bind _ _ noise_sd) by (now rewrite Hda).
  rewrite (outcome_bind _ _ fwd) by exact Hfw.
  rewrite (outcome_bind _ _ [sigma]) by (now rewrite Hens).
  rewrite (outcome_bind _ _ (VArr resid)) by (now rewrite Hres).
  rewrite (outcome_bind _ _ (VArr (map F64.sq resid))) by reflexivity.
  rewrite (outcome_bind _ _ sd2) by (now rewrite Hsq).
  rewrite (outcome_bind _ _ den) by (now rewrite Hden).
  rewrite (outcome_bind _ _ (VArr (map (fun x => x / (2 * s2))%float
                                      (map F64.sq resid))))
    by (now rewrite (divide_by_constant _ den _ Hd)).
  rewrite (outcome_bind _ _ (map (fun x => x / (2 * s2))%float
                                (map F64.sq resid))) by reflexivity.
  cbn [outcome ret snd map]. now rewrite map_map.
Qed.

(** [_lnlike] when the square of a float [noise_sd] overflows. *)
Lemma lnlike_constant_sd_overflow self pars data (rp : pyval * pydict)
      (noise_sd fwd : pyval) (sigma : float) (resid : list float) (e : exn) :
  get_par self "noise_sd" pars (Some data) = Ok rp ->
  dict_to_array data (fst rp) = Ok noise_sd ->
  constant_sd noise_sd sigma ->
  constant_sd_squared noise_sd = Raise e ->
  outcome (_forward self (snd rp) data None) = Ok fwd ->
  broadcast PrimFloat.sub fwd (VArr (values data)) = Ok (VArr resid) ->
  outcome (_lnlike self pars data) = Raise e.
Proof.
  intros Hgp Hda Hsd Hs2 Hfw Hres.
  destruct (constant_sd_raising_is_a_float noise_sd sigma e Hsd Hs2) as [Hsq Hens].
  unfold _lnlike.
  rewrite (outcome_bind _ _ rp) by (now rewrite Hgp).
  rewrite (outcome_bind _ _ noise_sd) by (now rewrite Hda).
  rewrite (outcome_bind _ _ fwd) by exact Hfw.
  rewrite (outcome_bind _ _ [sigma]) by (now rewrite Hens).
  rewrite (outcome_bind _ _ (VArr resid)) by (now rewrite Hres).
  rewrite (outcome_bind _ _ (VArr (map F64.sq resid))) by reflexivity.
  now rewrite Hsq.
Qed.

Lemma zip_with_length (f : float -> float -> float) (xs ys : list float) :
  List.length (zip_with f xs ys) = Nat.min (List.length xs) (List.length ys).
Proof.
  revert ys. induction xs as [|x xs IH]; intros [|y ys]; cbn; auto.
Qed.

Lemma broadcast_same_size (f : float -> float -> float) (xs ys : list float) :
  List.length xs = List.length ys ->
  broadcast f (VArr xs) (VArr ys) = Ok (VArr (zip_with f xs ys)).
Proof. intro H. cbn. now rewrite H, Nat.eqb_refl. Qed.

Lemma residual_terms_constant (fs ds : list float) (s2 : float) :
  List.length fs = List.length ds ->
  map (fun r => F64.sq r / (2 * s2))%float (zip_with PrimFloat.sub fs ds) =
    residual_terms fs ds (repeat s2 (List.length ds)).
Proof.
  revert ds. induction fs as [|f fs IH]; intros [|d ds] Hlen; cbn in *;
    try reflexivity; try discriminate.
  f_equal. apply IH. now injection Hlen.
Qed.

Lemma residual_terms_per_pixel (fs ds s2s : list float) :
  zip_with PrimFloat.div
    (map F64.sq (zip_with PrimFloat.sub fs ds))
    (map (PrimFloat.mul 2) s2s) =
  residual_terms fs ds s2s.
Proof.
  revert ds s2s. induction fs as [|f fs IH]; intros [|d ds] [|s s2s]; cbn;
    try reflexivity.
  f_equal. apply IH.
Qed.

Lemma zip_sub_self (xs : list float) :
  forallb F64.finite xs = true ->
  zip_with PrimFloat.sub xs xs = repeat 0%float (List.length xs).
Proof.
  induction xs as [|x xs IH]; cbn; [reflexivity|].
  intro H. apply andb_prop in H as [Hx Hxs].
  now rewrite (F64Facts.sub_self x Hx), IH.
Qed.

Lemma map_ninf_sub (xs : list float) :
  forallb F64.finite xs = true ->
  map (PrimFloat.sub F64.ninf) xs = repeat F64.ninf (List.length xs).
Proof.
  induction xs as [|x xs IH]; cbn [map repeat List.length forallb];
    [reflexivity|].
  intro H. apply andb_prop in H as [Hx Hxs].
  now rewrite (F64Facts.ninf_sub_finite x Hx), IH.
Qed.

(** [_lnlike] for a per-pixel [noise_sd] array of the size of the data. *)
Lemma lnlike_pixel_sd self pars data (rp : pyval * pydict)
      (fs sds : list float) :
  get_par self "noise_sd" pars (Some data) = Ok rp ->
  dict_to_array data (fst rp) = Ok (VArr sds) ->
  outcome (_forward self (snd rp) data None) = Ok (VArr fs) ->
  List.length fs = size data ->
  List.length sds = size data ->
  outcome (_lnlike self pars data) =
    Ok (gaussian_loglik sds fs (values data) (map F64.sq sds)).
Proof.
  intros Hgp Hda Hfw Hf Hs. unfold size in *.
  unfold _lnlike.
  rewrite (outcome_bind _ _ rp) by (now rewrite Hgp).
  rewrite (outcome_bind _ _ (VArr sds)) by (now rewrite Hda).
  rewrite (outcome_bind _ _ (VArr fs)) by exact Hfw.
  rewrite (outcome_bind _ _ sds) by reflexivity.
  rewrite (outcome_bind _ _ (VArr (zip_with PrimFloat.sub fs (values data))))
    by (now rewrite broadcast_same_size).
  rewrite (outcome_bind _ _ (VArr (map F64.sq (zip_with PrimFloat.sub fs (values data)))))
    by reflexivity.
  rewrite (outcome_bind _ _ (VArr (map F64.sq sds))) by reflexivity.
  rewrite (outcome_bind _ _ (VArr (map (PrimFloat.mul 2) (map F64.sq sds))))
    by reflexivity.
  rewrite (outcome_bind _ _ (VArr (residual_terms fs (values data) (map F64.sq sds)))).
  2:{ cbn [outcome lift snd]. rewrite broadcast_same_size.
      - now rewrite residual_terms_per_pixel.
      - rewrite !length_map, zip_with_length, Hf, Hs. apply Nat.min_id. }
  rewrite (outcome_bind _ _ (residual_terms fs (values data) (map F64.sq sds)))
    by reflexivity.
  reflexivity.
Qed.

(** C6, as the code has it: [_lnlike] computes
    [-N/2*log(2*pi) - N*mean(log(noise_sd)) - sum((forward-data)^2/(2*noise_sd^2))]
    for a constant and for a per-pixel [noise_sd], the square being Python's
    power on a float and numpy's on an array; when that power overflows on a
    float, [_lnlike] raises its OverflowError.  When the forward prediction
    equals the data, the data are finite and [noise_sd] is a constant [sigma]
    with [2*sigma**2] a positive float, it returns exactly
    [-N/2*log(2*pi) - N*log(sigma)] (numpy's mean of a single element being
    that element, and its sum of zeros being zero). *)
Theorem lnlike_is_gaussian_loglik self pars data (rp : pyval * pydict)
        (noise_sd : pyval) (fs : list float) :
  get_par self "noise_sd" pars (Some data) = Ok rp ->
  dict_to_array data (fst rp) = Ok noise_sd ->
  outcome (_forward self (snd rp) data None) = Ok (VArr fs) ->
  List.length fs = size data ->
  (forall sigma, constant_sd noise_sd sigma ->
     (forall s2, constant_sd_squared noise_sd = Ok s2 ->
        outcome (_lnlike self pars data) =
          Ok (gaussian_loglik [sigma] fs (values data) (repeat s2 (size data))) /\
        (fs = values data ->
         forallb F64.finite (values data) = true ->
         F64.positive (2 * s2) = true ->
         np_mean [np_log sigma] = np_log sigma ->
         np_sum (repeat 0%float (size data)) = 0%float ->
         outcome (_lnlike self pars data) =
           Ok (zero_residual_loglik (size data) sigma))) /\
     (forall e, constant_sd_squared noise_sd = Raise e ->
        outcome (_lnlike self pars data) = Raise e)) /\
  (forall sds, noise_sd = VArr sds -> List.length sds = size data ->
     outcome (_lnlike self pars data) =
       Ok (gaussian_loglik sds fs (values data) (map F64.sq sds))).
Proof.
  intros Hgp Hda Hfw Hf. split.
  - intros sigma Hsd. split.
    + intros s2 Hs2.
      assert (Hrun := lnlike_constant_sd self pars data rp noise_sd (VArr fs) sigma
                        s2 (zip_with PrimFloat.sub fs (values data)) Hgp Hda Hsd
                        Hs2 Hfw (broadcast_same_size _ _ _ Hf)).
      split.
      * rewrite Hrun. unfold gaussian_loglik, size.
        now rewrite residual_terms_constant.
      * intros -> Hfin Hpos Hmean Hsum. rewrite Hrun.
        rewrite (zip_sub_self _ Hfin), map_repeat, F64Facts.sq_zero,
          (F64Facts.zero_div_positive _ Hpos), Hmean.
        fold (size data). rewrite Hsum, F64Facts.sub_zero_r. reflexivity.
    + intros e He.
      exact (lnlike_constant_sd_overflow self pars data rp noise_sd (VArr fs) sigma
               (zip_with PrimFloat.sub fs (values data)) e Hgp Hda Hsd He Hfw
               (broadcast_same_size _ _ _ Hf)).
  - intros sds -> Hs. now apply (lnlike_pixel_sd self pars data rp).
Qed.

(** C4, as the code has it: when the solver raises MultisphereFailure or
    InvalidScatterer, [_fields] and [AlphaModel._forward] return negative
    infinity instead of raising; [_lnlike] then returns negative infinity
    provided the data are non-empty and finite, [noise_sd] is a constant
    [sigma] with [2*sigma**2] positive and finite, and the two leading terms
    are finite (numpy's sum of infinities being infinite). *)
Theorem scattering_failure_becomes_neg_infinity :
  (forall self pars schema (os : pydict * Scatterer) e,
     _optics_scatterer self pars schema = Ok os ->
     calc_field schema (snd os) (theory self) (fst os) = Raise e ->
     is_scattering_failure e = true ->
     outcome (_fields self pars schema) = Ok (inr F64.ninf)) /\
  (forall self pars schema alpha (ap : pyval * pydict) (os : pydict * Scatterer) e,
     class_of self = AlphaModelClass ->
     match alpha with
     | Some a => Ok (a, pars)
     | None => get_par self "alpha" pars None
     end = Ok ap ->
     _optics_scatterer self (snd ap) schema = Ok os ->
     calc_holo schema (snd os) (theory self) (fst ap) (fst os) = Raise e ->
     is_scattering_failure e = true ->
     outcome (_forward self pars schema alpha) = Ok (VFloat F64.ninf)) /\
  (forall self pars data (rp ap : pyval * pydict) (os : pydict * Scatterer)
          noise_sd sigma s2 e,
     class_of self = AlphaModelClass ->
     get_par self "noise_sd" pars (Some data) = Ok rp ->
     dict_to_array data (fst rp) = Ok noise_sd ->
     constant_sd noise_sd sigma ->
     constant_sd_squared noise_sd = Ok s2 ->
     get_par self "alpha" (snd rp) None = Ok ap ->
     _optics_scatterer self (snd ap) data = Ok os ->
     calc_holo data (snd os) (theory self) (fst ap) (fst os) = Raise e ->
     is_scattering_failure e = true ->
     values data <> [] ->
     forallb F64.finite (values data) = true ->
     F64.pos_finite (2 * s2) = true ->
     F64.finite (neg_half (size data) * np_log (2 * F64.np_pi)
                 - F64.of_nat (size data) * np_mean [np_log sigma]) = true ->
     np_sum (repeat F64.inf (size data)) = F64.inf ->
     outcome (_lnlike self pars data) = Ok F64.ninf).
Proof.
  assert (Hforward :
    forall self pars schema alpha (ap : pyval * pydict) (os : pydict * Scatterer) e,
      class_of self = AlphaModelClass ->
      match alpha with
      | Some a => Ok (a, pars)
      | None => get_par self "alpha" pars None
      end = Ok ap ->
      _optics_scatterer self (snd ap) schema = Ok os ->
      calc_holo schema (snd os) (theory self) (fst ap) (fst os) = Raise e ->
      is_scattering_failure e = true ->
      outcome (_forward self pars schema alpha) = Ok (VFloat F64.ninf)).
  { intros self pars schema alpha ap os e Hcls Hap Hos Hcalc He.
    unfold _forward. rewrite Hcls. destruct alpha as [a|].
    - injection Hap as <-. cbn [fst snd] in *.
      rewrite (forward_run_explicit self pars schema a os Hos), Hcalc.
      cbn. now rewrite He.
    - rewrite (forward_run_from_pars self pars schema ap os Hap Hos), Hcalc.
      cbn. now rewrite He. }
  split; [|split].
  - intros self pars schema os e Hos Hcalc He.
    rewrite (fields_run self pars schema os Hos), Hcalc. cbn. now rewrite He.
  - exact Hforward.
  - intros self pars data rp ap os noise_sd sigma s2 e
           Hcls Hgp Hda Hsd Hs2 Hap Hos Hcalc He Hne Hfin Hpos Hlead Hsum.
    assert (Hfw := Hforward self (snd rp) data None ap os e Hcls Hap Hos Hcalc He).
    rewrite (lnlike_constant_sd self pars data rp noise_sd (VFloat F64.ninf) sigma
               s2 (map (PrimFloat.sub F64.ninf) (values data)) Hgp Hda Hsd Hs2 Hfw
               eq_refl).
    rewrite (map_ninf_sub _ Hfin), map_repeat, F64Facts.sq_ninf,
      (F64Facts.inf_div_pos_finite _ Hpos).
    fold (size data). rewrite Hsum. f_equal. now apply F64Facts.finite_sub_inf.
Qed.

End Properties.

(** ** Construction *)

Section ConstructionProperties.

Variable Scatterer : Type.

Lemma deref_fresh (h : heap Scatterer) (l : list (ScattererConstraint Scatterer))
      (rest : heap Scatterer) :
  deref (h ++ l :: rest) (List.length h) = l.
Proof. unfold deref. now rewrite nth_middle. Qed.

Lemma append_at_fresh (h : heap Scatterer) (l : list (ScattererConstraint Scatterer))
      (rest : heap Scatterer) (c : ScattererConstraint Scatterer) :
  append_at (h ++ l :: rest) (List.length h) c = h ++ (l ++ [c]) :: rest.
Proof. induction h as [|x h IH]; cbn; [reflexivity|]. now rewrite IH. Qed.

(** C9, as the code has it: two instances built without a [constraints]
    argument hold the same list object, the default of the [__init__] they
    were built by; a constraint appended through one is registered with the
    other.  It holds for two NoiseModels and for two AlphaModels. *)
Theorem default_constraints_are_one_shared_list
        (h0 : heap Scatterer) (s1 s2 : ScattererTemplate Scatterer)
        (c : ScattererConstraint Scatterer) :
  let h := fst (run_class_statements h0) in
  let defs := snd (run_class_statements h0) in
  let n1 := NoiseModel_init defs NoiseModelClass s1 None None in
  let n2 := NoiseModel_init defs NoiseModelClass s2 None None in
  let a1 := AlphaModel_init defs s1 None None in
  let a2 := AlphaModel_init defs s2 None None in
  instance_constraints n1 = instance_constraints n2 /\
  deref h (instance_constraints n2) = [] /\
  deref (append_at h (instance_constraints n1) c) (instance_constraints n2) = [c] /\
  instance_constraints a1 = instance_constraints a2 /\
  deref h (instance_constraints a2) = [] /\
  deref (append_at h (instance_constraints a1) c) (instance_constraints a2) = [c].
Proof.
  cbn -[deref append_at]. repeat split.
  - rewrite <- app_assoc. apply deref_fresh.
  - rewrite <- app_assoc. cbn [app]. rewrite append_at_fresh. apply deref_fresh.
  - apply (deref_fresh (h0 ++ [[]]) [] []).
  - rewrite (append_at_fresh (h0 ++ [[]]) [] [] c).
    apply (deref_fresh (h0 ++ [[]]) [c] []).
Qed.

End ConstructionProperties.

(** ** The properties at work on the sample world *)

Module Examples.

Import Sample.

Lemma lnprior_rejects_negative_radius :
  In positive_radius (constraints guarded) /\
  outcome (lnprior guarded (PSeq bad_values)) = Ok F64.ninf /\
  Forall (fun e => is_lnprob_call e = false)
         (trace (lnprior guarded (PSeq bad_values))).
Proof.
  split; [left; reflexivity|].
  apply (lnprior_rejects_on_failed_constraint scatterer_t guarded
           (PSeq bad_values) positive_radius).
  - left; reflexivity.
  - reflexivity.
Defined.

Lemma lnposterior_skips_solver_on_negative_radius :
  outcome (lnposterior (imports := world failing_solver) guarded
             (PSeq bad_values) two_pixels None) = Ok F64.ninf /\
  trace (lnposterior (imports := world failing_solver) guarded
           (PSeq bad_values) two_pixels None)
    = trace (lnprior guarded (PSeq bad_values)) /\
  Forall (fun e => is_solver_call e = false)
         (trace (lnposterior (imports := world failing_solver) guarded
                   (PSeq bad_values) two_pixels None)).
Proof.
  apply (lnposterior_skips_likelihood_when_prior_rejects scatterer_t field_t
           (imports := world failing_solver) guarded (PSeq bad_values)
           two_pixels None F64.ninf).
  - reflexivity.
  - reflexivity.
Defined.

Example lnprior_of_dict_and_sequence_agree :
  outcome (lnprior lenient (PDict good_dict)) = Ok 0%float /\
  outcome (lnprior lenient (PSeq good_values)) = Ok 0%float /\
  outcome (lnprior lenient (PDict good_dict))
    = outcome (lnprior lenient (PSeq good_values)).
Proof.
  apply (lnprior_is_sum_of_lnprob scatterer_t lenient good_dict good_values).
  - repeat constructor.
  - reflexivity.
  - reflexivity.
Defined.

Lemma lnprior_of_two_values_out_of_three :
  List.length [VFloat 0.5; VFloat 1.5] < List.length (parameters unconstrained) /\
  outcome (lnprior unconstrained (PSeq [VFloat 0.5; VFloat 1.5])) = Ok 0%float /\
  dict_keys (_pack unconstrained (PSeq [VFloat 0.5; VFloat 1.5])) = ["r"; "n"].
Proof.
  pose proof (lnprior_truncates_short_sequence scatterer_t unconstrained
                [VFloat 0.5; VFloat 1.5]) as H.
  assert (Hlen : List.length [VFloat 0.5; VFloat 1.5]
                 < List.length (parameters unconstrained)) by (cbn; lia).
  destruct (H Hlen eq_refl) as (Hrun & _ & _).
  split; [exact Hlen|]. rewrite Hrun. split; reflexivity.
Defined.

Lemma lnposterior_adds_on_two_pixels :
  outcome (lnposterior (imports := world exact_solver) guarded
             (PSeq good_values) two_pixels None)
    = add_outcome 0%float
        (outcome (lnlike (imports := world exact_solver) guarded
                    (PSeq good_values) two_pixels)).
Proof.
  apply (lnposterior_is_prior_plus_likelihood scatterer_t field_t
           (imports := world exact_solver) guarded (PSeq good_values)
           two_pixels 0%float).
  - reflexivity.
  - reflexivity.
Defined.

Lemma lnposterior_on_second_pixel :
  outcome (lnposterior (imports := world exact_solver) guarded
             (PSeq good_values) two_pixels (Some [1]))
    = add_outcome 0%float
        (outcome (lnlike (imports := world exact_solver) guarded
                    (PSeq good_values) (select_pixels two_pixels [1]))) /\
  subset_calls (trace (lnposterior (imports := world exact_solver) guarded
                         (PSeq good_values) two_pixels (Some [1])))
    = [(two_pixels, [1])].
Proof.
  destruct (lnposterior_evaluates_likelihood_on_subset scatterer_t field_t
              (imports := world exact_solver) guarded (PSeq good_values)
              two_pixels [1] 0%float eq_refl eq_refl) as (Hout & _ & Hcalls).
  split; [exact Hout | exact Hcalls].
Defined.

Lemma forward_scales_by_explicit_alpha :
  dict_get good_pars "alpha" = Some (VFloat 1) /\
  _forward (imports := world exact_solver) guarded good_pars two_pixels
           (Some (VFloat 2))
    = ([EvCalcHolo two_pixels (VFloat 2)], Ok (VArr [1%float; 0.5%float])).
Proof.
  split; [reflexivity|].
  apply (forward_explicit_alpha_overrides_pars scatterer_t field_t
           (imports := world exact_solver) guarded good_pars two_pixels
           (VFloat 2) (VFloat 1) ([], good_pars)).
  - reflexivity.
  - reflexivity.
  - reflexivity.
Defined.

Lemma scattering_failure_on_two_pixels :
  outcome (_fields (imports := world failing_solver) guarded good_pars two_pixels)
    = Ok (inr F64.ninf) /\
  outcome (_forward (imports := world failing_solver) guarded good_pars
             two_pixels None)
    = Ok (VFloat F64.ninf) /\
  outcome (_lnlike (imports := world failing_solver) guarded good_pars two_pixels)
    = Ok F64.ninf.
Proof.
  destruct (scattering_failure_becomes_neg_infinity scatterer_t field_t
              (imports := world failing_solver))
    as (Hfields & Hforward & Hlnlike).
  split; [|split].
  - apply (Hfields guarded good_pars two_pixels ([], good_pars) InvalidScatterer);
      reflexivity.
  - apply (Hforward guarded good_pars two_pixels None (VFloat 1, sphere_pars)
             ([], sphere_pars) MultisphereFailure); reflexivity.
  - apply (Hlnlike guarded good_pars two_pixels (VArr [0.5%float], good_pars)
             (VFloat 1, sphere_pars) ([], sphere_pars) (VArr [0.5%float])
             0.5%float 0.25%float MultisphereFailure); try reflexivity.
    + right; reflexivity.
    + discriminate.
Defined.

(** On an empty data array the solver's failure leaves [_lnlike] at 0. *)
Lemma lnlike_after_failure_on_no_pixel :
  calc_holo (Imports := world failing_solver) no_pixel (make_from sphere sphere_pars)
            (theory guarded) (VFloat 1) []
    = Raise MultisphereFailure /\
  _lnlike (imports := world failing_solver) guarded good_pars no_pixel
    = ([EvCalcHolo no_pixel (VFloat 1)], Ok 0%float) /\
  (0 =? F64.ninf)%float = false.
Proof. repeat split; reflexivity. Qed.

Lemma lnlike_exact_on_two_pixels :
  outcome (_lnlike (imports := world exact_solver) guarded good_pars two_pixels)
    = Ok (zero_residual_loglik (imports := world exact_solver) 2 0.5%float) /\
  outcome (_lnlike (imports := world exact_solver) unconstrained half_sd_pars
             two_pixels)
    = Ok (zero_residual_loglik (imports := world exact_solver) 2 0.5%float) /\
  outcome (_lnlike (imports := world exact_solver) unconstrained huge_sd_pars
             two_pixels)
    = Raise OverflowError.
Proof.
  split; [|split].
  - destruct (lnlike_is_gaussian_loglik scatterer_t field_t
                (imports := world exact_solver) guarded good_pars two_pixels
                (VArr [0.5%float], good_pars) (VArr [0.5%float])
                [1%float; 0.5%float] eq_refl eq_refl eq_refl eq_refl)
      as [Hconstant _].
    destruct (Hconstant 0.5%float (or_intror eq_refl)) as [Hsquare _].
    destruct (Hsquare 0.25%float eq_refl) as [_ Hzero].
    apply Hzero; reflexivity.
  - destruct (lnlike_is_gaussian_loglik scatterer_t field_t
                (imports := world exact_solver) unconstrained half_sd_pars
                two_pixels (VFloat 0.5, good_pars) (VFloat 0.5)
                [1%float; 0.5%float] eq_refl eq_refl eq_refl eq_refl)
      as [Hconstant _].
    destruct (Hconstant 0.5%float (or_introl eq_refl)) as [Hsquare _].
    destruct (Hsquare 0.25%float eq_refl) as [_ Hzero].
    apply Hzero; reflexivity.
  - destruct (lnlike_is_gaussian_loglik scatterer_t field_t
                (imports := world exact_solver) unconstrained huge_sd_pars
                two_pixels (VFloat huge_sd, good_pars) (VFloat huge_sd)
                [1%float; 0.5%float] eq_refl eq_refl eq_refl eq_refl)
      as [Hconstant _].
    destruct (Hconstant huge_sd (or_introl eq_refl)) as [_ Hraise].
    apply Hraise. reflexivity.
Defined.

(** With [noise_sd = 1e-200] its square underflows to 0: the residual term
    is [0/0], and [_lnlike] is NaN where the closed form is finite. *)
Lemma lnlike_zero_residual_with_tiny_sd :
  outcome (_forward (imports := world exact_solver) unconstrained good_pars
             one_pixel None)
    = Ok (VArr (values one_pixel)) /\
  _lnlike (imports := world exact_solver) unconstrained tiny_sd_pars one_pixel
    = ([EvCalcHolo one_pixel (VFloat 1)], Ok nan) /\
  zero_residual_loglik (imports := world exact_solver) (size one_pixel) tiny_sd
    = 0x1.cb991bc672293p+8%float /\
  PrimFloat.is_nan 0x1.cb991bc672293p+8%float = false.
Proof. repeat split; reflexivity. Qed.

(** C3, as the code has it: the values of [good_dict] are those of
    [good_values], name by name, and its radius satisfies the constraint of
    [guarded]; on the sequence [lnprior] is the sum of the [lnprob]s, but on
    the dict it is negative infinity.  The loop packs the dict by iterating
    it, which yields its keys: the constraint is asked about a scatterer
    whose radius is a parameter name. *)
Theorem lnprior_of_dict_disagrees_with_sequence :
  Forall2 (fun p v => dict_get good_dict (name p) = Some v)
          (parameters guarded) good_values /\
  forallb (fun c => check c (make_from (scatterer guarded) good_dict))
          (constraints guarded) = true /\
  constraints_pass guarded (PSeq good_values) = true /\
  outcome (lnprior guarded (PSeq good_values))
    = Ok (py_sum (map lnprob_of (combine (parameters guarded) good_values))) /\
  py_sum (map lnprob_of (combine (parameters guarded) good_values)) = 0%float /\
  lnprior guarded (PDict good_dict)
    = ([EvCheck [("r", VStr "alpha"); ("n", VStr "n"); ("alpha", VStr "r")]],
       Ok F64.ninf).
Proof.
  split; [repeat constructor|]. repeat split; reflexivity.
Qed.

(** Two default-built NoiseModels: a constraint appended through the first
    is registered with the second. *)
Example appended_constraint_shows_in_other_instance :
  let h := fst (run_class_statements (Scatterer := scatterer_t) []) in
  let defs := snd (run_class_statements (Scatterer := scatterer_t) []) in
  let n1 := NoiseModel_init defs NoiseModelClass sphere None None in
  let n2 := NoiseModel_init defs NoiseModelClass sphere None None in
  deref h (instance_constraints n2) = [] /\
  deref (append_at h (instance_constraints n1) positive_radius)
        (instance_constraints n2) = [positive_radius].
Proof. split; reflexivity. Qed.

End Examples.

(** ** Further properties *)

Module F64More.

Lemma add_nan_l (x : float) : (nan + x)%float = nan.
Proof.
  apply F64Facts.via_spec. rewrite FloatAxioms.add_spec, F64Facts.spec_nan.
  reflexivity.
Qed.

Lemma add_ninf_r (x : float) :
  below_plus_inf x = true -> (x + F64.ninf)%float = F64.ninf.
Proof.
  unfold below_plus_inf. intro H. apply F64Facts.via_spec.
  rewrite FloatAxioms.add_spec, F64Facts.spec_ninf.
  destruct (Prim2SF x) as [[]|[]| |]; try discriminate; reflexivity.
Qed.

Lemma add_ninf_l (x : float) :
  below_plus_inf x = true -> (F64.ninf + x)%float = F64.ninf.
Proof.
  unfold below_plus_inf. intro H. apply F64Facts.via_spec.
  rewrite FloatAxioms.add_spec, F64Facts.spec_ninf.
  destruct (Prim2SF x) as [[]|[]| |]; try discriminate; reflexivity.
Qed.

Lemma finite_below_plus_inf (x : float) :
  F64.finite x = true -> below_plus_inf x = true.
Proof.
  unfold F64.finite, below_plus_inf.
  destruct (Prim2SF x) as [[]|[]| |]; try discriminate; reflexivity.
Qed.

Lemma finite_neq_ninf (x : float) :
  F64.finite x = true -> (x =? F64.ninf)%float = false.
Proof.
  unfold F64.finite. rewrite FloatAxioms.eqb_spec, F64Facts.spec_ninf.
  unfold SFeqb, SFcompare.
  destruct (Prim2SF x) as [[]|[]| |[]]; try discriminate; reflexivity.
Qed.

Lemma inf_div_each (dens : list float) :
  forallb F64.pos_finite dens = true ->
  zip_with PrimFloat.div (repeat F64.inf (List.length dens)) dens
    = repeat F64.inf (List.length dens).
Proof.
  induction dens as [|d dens IH]; cbn [zip_with repeat List.length forallb];
    [reflexivity|].
  intro H. apply andb_prop in H as [Hd Hs].
  now rewrite (F64Facts.inf_div_pos_finite d Hd), IH.
Qed.

Lemma zero_div_each (dens : list float) :
  forallb F64.positive dens = true ->
  zip_with PrimFloat.div (repeat 0%float (List.length dens)) dens
    = repeat 0%float (List.length dens).
Proof.
  induction dens as [|d dens IH]; cbn [zip_with repeat List.length forallb];
    [reflexivity|].
  intro H. apply andb_prop in H as [Hd Hs].
  now rewrite (F64Facts.zero_div_positive d Hd), IH.
Qed.

Lemma sum_stays_ninf (xs : list float) :
  forallb below_plus_inf xs = true ->
  fold_left PrimFloat.add xs F64.ninf = F64.ninf.
Proof.
  induction xs as [|x xs IH]; cbn [fold_left forallb]; [reflexivity|].
  intro H. apply andb_prop in H as [Hx Hxs].
  now rewrite (add_ninf_l x Hx), IH.
Qed.

End F64More.

Section FurtherProperties.

Variables Scatterer Field : Type.
Context {imports : Imports Scatterer Field}.

Let Model := Model Scatterer.
Let ScattererConstraint := ScattererConstraint Scatterer.

Implicit Types (self : Model) (par_vals : ParVals) (data : DataArray).

(** *** Packing *)

Lemma find_last {A} (f : A -> bool) (xs : list A) (x : A) :
  find f (xs ++ [x]) =
    match find f xs with
    | Some y => Some y
    | None => if f x then Some x else None
    end.
Proof.
  induction xs as [|y xs IH]; cbn [app find]; [reflexivity|].
  now destruct (f y).
Qed.

Lemma pack_fold_lookup (pairs : list (PriorParameter * pyval)) (d : pydict)
      (k : string) :
  dict_get (fold_left (fun d pv => dict_set d (name (fst pv)) (snd pv)) pairs d) k =
    match last_named k pairs with
    | Some pv => Some (snd pv)
    | None => dict_get d k
    end.
Proof.
  unfold last_named. revert d.
  induction pairs as [|pv pairs IH]; intro d; cbn [fold_left rev find];
    [reflexivity|].
  rewrite IH, find_last, (dict_get_set d k (name (fst pv)) (snd pv)).
  destruct (find _ (rev pairs)); [reflexivity|].
  now destruct (String.eqb k (name (fst pv))).
Qed.

Lemma In_firstn {A} (n : nat) (xs : list A) (x : A) :
  In x (firstn n xs) -> In x xs.
Proof.
  revert n. induction xs as [|y xs IH]; intros [|n]; cbn; try tauto.
  intros [->|H]; [now left|right; now apply (IH n)].
Qed.

Lemma NoDup_firstn {A} (n : nat) (xs : list A) : NoDup xs -> NoDup (firstn n xs).
Proof.
  intro H. revert n. induction H as [|x xs Hx _ IH]; intros [|n]; cbn;
    try constructor; auto.
  intro Hin. apply Hx. now apply (In_firstn n).
Qed.

Lemma same_image_same_element {A B} (f : A -> B) (xs : list A) (x y : A) :
  NoDup (map f xs) -> In x xs -> In y xs -> f x = f y -> x = y.
Proof.
  induction xs as [|z xs IH]; cbn [map In]; [tauto|].
  intros Hnd [->|Hx] [->|Hy] Hf; auto.
  - inversion Hnd as [|? ? Hz _]. exfalso. apply Hz. rewrite Hf. now apply in_map.
  - inversion Hnd as [|? ? Hz _]. exfalso. apply Hz. rewrite <- Hf. now apply in_map.
  - inversion Hnd. now apply IH.
Qed.

Lemma nth_error_combine_pair {A B} (xs : list A) (ys : list B) (i : nat)
      (x : A) (y : B) :
  nth_error xs i = Some x -> nth_error ys i = Some y ->
  In (x, y) (combine xs ys).
Proof.
  revert xs ys. induction i as [|i IH]; intros [|x' xs] [|y' ys]; cbn;
    try discriminate.
  - intros [= ->] [= ->]. now left.
  - intros Hx Hy. right. now apply IH.
Qed.

(** X2: looking up a name in [_pack(vals)] gives the value zipped with the
    last parameter of that name, and nothing for a name no zipped parameter
    has: a later parameter of the same name overwrites an earlier one. *)
Theorem pack_lookup_is_last_of_that_name self (vs : list pyval) (k : string) :
  dict_get (_pack self (PSeq vs)) k =
    option_map snd (last_named k (combine (parameters self) vs)).
Proof.
  unfold _pack, pack_pairs. cbn [iterate]. rewrite pack_fold_lookup.
  now destruct (last_named k _).
Qed.

(** X1: round trip: when the parameter names are distinct, the value at
    position [i] of the sequence is found in [_pack(vals)] under the name of
    the parameter at position [i]. *)
Theorem pack_then_lookup_recovers_value self (vs : list pyval) (i : nat)
        (p : PriorParameter) (v : pyval) :
  NoDup (map name (parameters self)) ->
  nth_error (parameters self) i = Some p ->
  nth_error vs i = Some v ->
  dict_get (_pack self (PSeq vs)) (name p) = Some v.
Proof.
  intros Hnd Hp Hv. unfold _pack, pack_pairs. cbn [iterate].
  rewrite pack_fold_lookup. cbn [dict_get].
  assert (Hin : In (p, v) (combine (parameters self) vs))
    by now apply (nth_error_combine_pair _ _ i).
  assert (Hnd' : NoDup (map (fun pv : PriorParameter * pyval => name (fst pv))
                            (combine (parameters self) vs))).
  { rewrite <- (map_map fst name), combine_fst_firstn, <- firstn_map.
    now apply NoDup_firstn. }
  unfold last_named.
  destruct (find _ (rev (combine (parameters self) vs))) as [[p' v']|] eqn:E.
  - apply find_some in E as [Hin' Heq]. apply String.eqb_eq in Heq.
    apply in_rev in Hin'. cbn [fst snd] in *.
    assert (Hsame : (p, v) = (p', v'))
      by now apply (same_image_same_element _ _ _ _ Hnd' Hin Hin').
    now injection Hsame as _ ->.
  - apply in_rev in Hin. apply (find_none _ _ E (p, v)) in Hin.
    cbn in Hin. now rewrite String.eqb_refl in Hin.
Qed.

Lemma combine_ignores_extra {A B} (xs : list A) (ys extra : list B) :
  List.length xs <= List.length ys ->
  combine xs (ys ++ extra) = combine xs ys.
Proof.
  revert ys. induction xs as [|x xs IH]; intros [|y ys] Hlen; cbn in *;
    try reflexivity; try lia.
  f_equal. apply IH. lia.
Qed.

Lemma constraints_loop_by_pack self par_vals par_vals'
      (cs : list ScattererConstraint) :
  _pack self par_vals = _pack self par_vals' ->
  constraints_loop self par_vals cs = constraints_loop self par_vals' cs.
Proof.
  intro Hpack. induction cs as [|c cs IH]; cbn [constraints_loop];
    [reflexivity|].
  now rewrite Hpack, IH.
Qed.

(** X3: values beyond the last parameter are silently dropped: a sequence at
    least as long as the parameter list gives the same packing, the same
    prior, the same likelihood and the same posterior, calls included, as
    the sequence with further values appended. *)
Theorem extra_values_are_ignored self (vs extra : list pyval) data pixels :
  List.length (parameters self) <= List.length vs ->
  _pack self (PSeq (vs ++ extra)) = _pack self (PSeq vs) /\
  lnprior self (PSeq (vs ++ extra)) = lnprior self (PSeq vs) /\
  lnlike self (PSeq (vs ++ extra)) data = lnlike self (PSeq vs) data /\
  lnposterior self (PSeq (vs ++ extra)) data pixels
    = lnposterior self (PSeq vs) data pixels.
Proof.
  intro Hlen.
  assert (Hpack : _pack self (PSeq (vs ++ extra)) = _pack self (PSeq vs)).
  { unfold _pack. cbn [iterate]. now rewrite combine_ignores_extra. }
  assert (Hprior : lnprior self (PSeq (vs ++ extra)) = lnprior self (PSeq vs)).
  { unfold lnprior.
    rewrite (constraints_loop_by_pack self _ (PSeq vs) _ Hpack).
    now rewrite combine_ignores_extra. }
  assert (Hlike : forall d, lnlike self (PSeq (vs ++ extra)) d
                            = lnlike self (PSeq vs) d).
  { intro d. unfold lnlike. now rewrite Hpack. }
  repeat split; auto.
  unfold lnposterior. rewrite Hprior.
  destruct (lnprior self (PSeq vs)) as [t [lp|e]]; [|reflexivity].
  cbn [bind]. destruct (lp =? F64.ninf)%float; [reflexivity|].
  destruct pixels as [px|]; cbn -[lnlike]; now rewrite Hlike.
Qed.

(** *** The prior *)

Lemma constraints_loop_all_pass self par_vals (cs : list ScattererConstraint) :
  forallb (fun c => check c (make_from (scatterer self) (_pack self par_vals))) cs
    = true ->
  constraints_loop self par_vals cs =
    (repeat (EvCheck (_pack self par_vals)) (List.length cs), Ok true).
Proof.
  induction cs as [|c cs IH]; cbn [constraints_loop forallb List.length repeat];
    [reflexivity|].
  intro H. apply andb_prop in H as [Hc Hcs].
  rewrite Hc, (IH Hcs). reflexivity.
Qed.

Lemma constraints_loop_first_failure self par_vals
      (passed rest : list ScattererConstraint) (c : ScattererConstraint) :
  forallb (fun c => check c (make_from (scatterer self) (_pack self par_vals))) passed
    = true ->
  check c (make_from (scatterer self) (_pack self par_vals)) = false ->
  constraints_loop self par_vals (passed ++ c :: rest) =
    (repeat (EvCheck (_pack self par_vals)) (S (List.length passed)), Ok false).
Proof.
  intros Hpassed Hc.
  induction passed as [|q passed IH];
    cbn [constraints_loop forallb List.length repeat app] in *.
  - now rewrite Hc.
  - apply andb_prop in Hpassed as [Hq Hpassed].
    rewrite Hq, (IH Hpassed). reflexivity.
Qed.

(** X4: the constraint loop stops at the first constraint that rejects: the
    constraints before it have each been checked once, on the same packed
    mapping, the ones after it are never checked, no [lnprob] is called, and
    the prior is negative infinity. *)
Theorem lnprior_stops_at_first_rejection self par_vals
        (passed rest : list ScattererConstraint) (c : ScattererConstraint) :
  constraints self = passed ++ c :: rest ->
  forallb (fun c => check c (make_from (scatterer self) (_pack self par_vals))) passed
    = true ->
  check c (make_from (scatterer self) (_pack self par_vals)) = false ->
  lnprior self par_vals =
    (repeat (EvCheck (_pack self par_vals)) (S (List.length passed)), Ok F64.ninf).
Proof.
  intros Hcs Hpassed Hc. unfold lnprior.
  rewrite Hcs, (constraints_loop_first_failure self par_vals passed rest c Hpassed Hc).
  rewrite bind_ok. cbn. now rewrite app_nil_r.
Qed.

(** X5: when every constraint accepts a positional sequence, [lnprior] checks
    each constraint once, then calls [lnprob] once per zipped parameter, in
    declaration order, and returns the sum of the results added from left to
    right. *)
Theorem lnprior_of_accepted_sequence self (vs : list pyval) :
  constraints_pass self (PSeq vs) = true ->
  lnprior self (PSeq vs) =
    (repeat (EvCheck (_pack self (PSeq vs))) (List.length (constraints self))
       ++ map lnprob_call_of (combine (parameters self) vs),
     Ok (py_sum (map lnprob_of (combine (parameters self) vs)))).
Proof.
  intro Hpass. unfold lnprior.
  rewrite (constraints_loop_all_pass self (PSeq vs) (constraints self) Hpass).
  rewrite bind_ok. cbn [trace outcome fst snd].
  rewrite comprehension_positional, bind_ok. cbn. now rewrite app_nil_r.
Qed.

Lemma comprehension_keyed_missing (d : pydict) (before after : list PriorParameter)
      (p : PriorParameter) (vs : list pyval) :
  Forall2 (fun q v => dict_get d (name q) = Some v) before vs ->
  dict_get d (name p) = None ->
  comprehension (fun q => v <- lift (subscript d (name q));; call_lnprob q v)
                (before ++ p :: after) =
    (map lnprob_call_of (combine before vs), Raise (KeyError (name p))).
Proof.
  intros Hbefore Hp.
  induction Hbefore as [|q v before vs Hq _ IH]; cbn [comprehension combine map app].
  - unfold subscript. rewrite Hp. reflexivity.
  - rewrite IH. unfold subscript. rewrite Hq. reflexivity.
Qed.

(** X6: a dict that lacks a parameter's name: once the constraints have
    accepted, [lnprior] raises KeyError for the first parameter, in
    declaration order, that the dict has no entry for; [lnprob] has been
    called for the parameters before it only. *)
Theorem lnprior_of_dict_missing_a_name self (d : pydict)
        (before after : list PriorParameter) (p : PriorParameter)
        (vs : list pyval) :
  constraints_pass self (PDict d) = true ->
  parameters self = before ++ p :: after ->
  Forall2 (fun q v => dict_get d (name q) = Some v) before vs ->
  dict_get d (name p) = None ->
  lnprior self (PDict d) =
    (repeat (EvCheck (_pack self (PDict d))) (List.length (constraints self))
       ++ map lnprob_call_of (combine before vs),
     Raise (KeyError (name p))).
Proof.
  intros Hpass Hps Hbefore Hp. unfold lnprior.
  rewrite (constraints_loop_all_pass self (PDict d) (constraints self) Hpass).
  rewrite bind_ok. cbn [trace outcome fst snd].
  rewrite Hps, (comprehension_keyed_missing d before after p vs Hbefore Hp).
  reflexivity.
Qed.

(** X7: with no constraint registered, a dict and the sequence of its values
    in parameter order give the same run of [lnprior]: the same [lnprob]
    calls and the same sum.  Keys of the dict that name no parameter, and
    the order of its keys, play no part. *)
Theorem lnprior_of_dict_is_that_of_its_values self (d : pydict) (vs : list pyval) :
  constraints self = [] ->
  Forall2 (fun p v => dict_get d (name p) = Some v) (parameters self) vs ->
  lnprior self (PDict d) = lnprior self (PSeq vs) /\
  lnprior self (PDict d) =
    (map lnprob_call_of (combine (parameters self) vs),
     Ok (py_sum (map lnprob_of (combine (parameters self) vs)))).
Proof.
  intros Hcs Hd.
  assert (Hdict : lnprior self (PDict d) =
                    (map lnprob_call_of (combine (parameters self) vs),
                     Ok (py_sum (map lnprob_of (combine (parameters self) vs))))).
  { unfold lnprior. rewrite Hcs. cbn [constraints_loop]. rewrite bind_ret.
    rewrite (comprehension_keyed d _ vs Hd), bind_ok. cbn. now rewrite app_nil_r. }
  split; [|exact Hdict]. rewrite Hdict.
  unfold lnprior. rewrite Hcs. cbn [constraints_loop]. rewrite bind_ret.
  rewrite comprehension_positional, bind_ok. cbn. now rewrite app_nil_r.
Qed.

Lemma py_sum_with_ninf (pre post : list float) :
  below_plus_inf (py_sum pre) = true ->
  forallb below_plus_inf post = true ->
  py_sum (pre ++ F64.ninf :: post) = F64.ninf.
Proof.
  intros Hpre Hpost. unfold py_sum in *. rewrite fold_left_app. cbn [fold_left].
  rewrite (F64More.add_ninf_r _ Hpre). now apply F64More.sum_stays_ninf.
Qed.

(** X8: a value outside the support of its prior: when one [lnprob] is
    negative infinity, the sum of those before it is not [+inf] or NaN and
    none after it is [+inf] or NaN, [lnprior] is negative infinity, and
    [lnposterior] returns negative infinity without calling the solver. *)
Theorem value_outside_prior_support_is_rejected
        self (vs : list pyval) data pixels (pre post : list float) :
  constraints_pass self (PSeq vs) = true ->
  map lnprob_of (combine (parameters self) vs) = pre ++ F64.ninf :: post ->
  below_plus_inf (py_sum pre) = true ->
  forallb below_plus_inf post = true ->
  outcome (lnprior self (PSeq vs)) = Ok F64.ninf /\
  outcome (lnposterior self (PSeq vs) data pixels) = Ok F64.ninf /\
  Forall (fun e => is_solver_call e = false)
         (trace (lnposterior self (PSeq vs) data pixels)).
Proof.
  intros Hpass Hterms Hpre Hpost.
  assert (Hprior : outcome (lnprior self (PSeq vs)) = Ok F64.ninf).
  { unfold lnprior.
    rewrite (constraints_loop_all_pass self (PSeq vs) (constraints self) Hpass).
    rewrite bind_ok. cbn [trace outcome fst snd].
    rewrite comprehension_positional, bind_ok. cbn [trace outcome fst snd ret].
    now rewrite Hterms, (py_sum_with_ninf pre post Hpre Hpost). }
  split; [exact Hprior|].
  rewrite (lnposterior_rejected Scatterer Field self (PSeq vs) data pixels F64.ninf
             Hprior F64Facts.eqb_ninf_refl).
  split; [exact Hprior|]. now apply lnprior_trace.
Qed.

(** *** The posterior *)

Lemma lnposterior_raised self par_vals data pixels (e : exn) :
  outcome (lnprior self par_vals) = Raise e ->
  lnposterior self par_vals data pixels = lnprior self par_vals.
Proof.
  intro H. unfold lnposterior.
  destruct (lnprior self par_vals) as [t [lp|e']]; [discriminate|reflexivity].
Qed.

(** X9: an exception of [lnprior] (the KeyError of a dict that lacks a name)
    leaves [lnposterior] as it is: nothing is called after [lnprior], the
    solver least of all. *)
Theorem lnposterior_propagates_prior_exception self par_vals data pixels (e : exn) :
  outcome (lnprior self par_vals) = Raise e ->
  lnposterior self par_vals data pixels = lnprior self par_vals /\
  outcome (lnposterior self par_vals data pixels) = Raise e /\
  Forall (fun ev => is_solver_call ev = false)
         (trace (lnposterior self par_vals data pixels)).
Proof.
  intro H. rewrite (lnposterior_raised self par_vals data pixels e H).
  repeat split; [exact H|]. now apply lnprior_trace.
Qed.

(** X10: a NaN prior is not a rejection: [nan == -inf] is false, so the
    likelihood is evaluated, solver call included, and the posterior is NaN
    whenever the likelihood returns. *)
Theorem lnposterior_of_nan_prior_evaluates_likelihood self par_vals data pixels :
  outcome (lnprior self par_vals) = Ok nan ->
  trace (lnposterior self par_vals data pixels) =
    trace (lnprior self par_vals)
      ++ match pixels with Some px => [EvSubset data px] | None => [] end
      ++ trace (lnlike self par_vals (likelihood_data data pixels)) /\
  forall ll, outcome (lnlike self par_vals (likelihood_data data pixels)) = Ok ll ->
             outcome (lnposterior self par_vals data pixels) = Ok nan.
Proof.
  intro Hnan.
  rewrite (lnposterior_accepted Scatterer Field self par_vals data pixels nan
             Hnan eq_refl).
  cbn [trace outcome fst snd]. split; [reflexivity|].
  intros ll Hll. unfold likelihood_data in Hll. rewrite Hll.
  cbn [add_outcome]. now rewrite F64More.add_nan_l.
Qed.

(** X11: when the solver has failed, so that the likelihood is negative
    infinity, and the prior is finite, the posterior is negative
    infinity. *)
Theorem lnposterior_of_failed_likelihood self par_vals data pixels (lp : float) :
  outcome (lnprior self par_vals) = Ok lp ->
  F64.finite lp = true ->
  outcome (lnlike self par_vals (likelihood_data data pixels)) = Ok F64.ninf ->
  outcome (lnposterior self par_vals data pixels) = Ok F64.ninf.
Proof.
  intros Hlp Hfin Hll.
  rewrite (lnposterior_accepted Scatterer Field self par_vals data pixels lp
             Hlp (F64More.finite_neq_ninf lp Hfin)).
  cbn [outcome snd]. unfold likelihood_data in Hll. rewrite Hll.
  cbn [add_outcome].
  now rewrite (F64More.add_ninf_r lp (F64More.finite_below_plus_inf lp Hfin)).
Qed.

(** X12: the value of [lnposterior] with [pixels] is its value, without
    [pixels], on the data subset beforehand. *)
Theorem lnposterior_with_pixels_is_lnposterior_of_subset
        self par_vals data (px : list nat) :
  outcome (lnposterior self par_vals data (Some px)) =
    outcome (lnposterior self par_vals (make_subset_data data px) None).
Proof.
  unfold lnposterior.
  destruct (lnprior self par_vals) as [t [lp|e]]; [|reflexivity].
  cbn [bind]. destruct (lp =? F64.ninf)%float; [reflexivity|].
  cbn -[lnlike].
  now destruct (lnlike self par_vals (make_subset_data data px)) as [t' [ll|e]].
Qed.

Lemma trace_bind_lift {A B} (r : result A) (k : A -> M B) :
  trace (bind (lift r) k) =
    match r with
    | Ok a => trace (k a)
    | Raise _ => []
    end.
Proof. destruct r as [a|e]; cbn; [|reflexivity]. now destruct (k a). Qed.

Lemma no_event (t : list event) : Forall (fun _ => False) t -> t = [].
Proof. now destruct 1. Qed.

Lemma trace_bind_then_silent {A B} (m : M A) (k : A -> M B) :
  (forall a, trace (k a) = []) -> trace (bind m k) = trace m.
Proof.
  intro Hk. destruct m as [t [a|e]]; cbn; [|reflexivity].
  specialize (Hk a). destruct (k a) as [t' r]. cbn in *. subst t'.
  apply app_nil_r.
Qed.

Lemma forward_trace_shape self pars schema (alpha : option pyval) :
  trace (_forward self pars schema alpha) = [] \/
  exists a, trace (_forward self pars schema alpha) = [EvCalcHolo schema a].
Proof.
  unfold _forward, AlphaModel_forward.
  destruct (class_of self); [now left|].
  assert (Hrest : forall ap : pyval * pydict,
    trace (os <- lift (_optics_scatterer self (snd ap) schema);;
           tell (EvCalcHolo schema (fst ap));;;
           catch_scattering_failure
             (calc_holo schema (snd os) (theory self) (fst ap) (fst os))
             VArr (VFloat F64.ninf)) = [] \/
    exists a,
    trace (os <- lift (_optics_scatterer self (snd ap) schema);;
           tell (EvCalcHolo schema (fst ap));;;
           catch_scattering_failure
             (calc_holo schema (snd os) (theory self) (fst ap) (fst os))
             VArr (VFloat F64.ninf)) = [EvCalcHolo schema a]).
  { intro ap. rewrite trace_bind_lift.
    destruct (_optics_scatterer self (snd ap) schema) as [os|e]; [|now left].
    right. exists (fst ap). rewrite catch_run. reflexivity. }
  destruct alpha as [a|].
  - rewrite bind_ret. apply Hrest.
  - rewrite trace_bind_lift.
    destruct (get_par self "alpha" pars None) as [ap|e]; [apply Hrest|now left].
Qed.

Lemma lnlike_trace_shape self pars data :
  trace (_lnlike self pars data) = [] \/
  exists a, trace (_lnlike self pars data) = [EvCalcHolo data a].
Proof.
  unfold _lnlike. rewrite trace_bind_lift.
  destruct (get_par self "noise_sd" pars (Some data)) as [rp|e]; [|now left].
  rewrite trace_bind_lift.
  destruct (dict_to_array data (fst rp)) as [noise_sd|e]; [|now left].
  rewrite trace_bind_then_silent; [apply forward_trace_shape|].
  intro fwd. apply no_event.
  repeat first
    [ apply trace_silent
    | apply trace_bind; [|intro]
    | constructor ].
Qed.

Lemma lnposterior_trace_cases self par_vals data pixels :
  trace (lnposterior self par_vals data pixels) = trace (lnprior self par_vals) \/
  trace (lnposterior self par_vals data pixels) =
    trace (lnprior self par_vals)
      ++ match pixels with Some px => [EvSubset data px] | None => [] end
      ++ trace (lnlike self par_vals (likelihood_data data pixels)).
Proof.
  destruct (outcome (lnprior self par_vals)) as [lp|e] eqn:Hlp.
  - destruct (lp =? F64.ninf)%float eqn:Heq.
    + left. now rewrite (lnposterior_rejected Scatterer Field self par_vals data
                           pixels lp Hlp Heq).
    + right. now rewrite (lnposterior_accepted Scatterer Field self par_vals data
                            pixels lp Hlp Heq).
  - left. now rewrite (lnposterior_raised self par_vals data pixels e Hlp).
Qed.

Lemma filter_none {A} (f : A -> bool) (xs : list A) :
  Forall (fun x => f x = false) xs -> filter f xs = [].
Proof. induction 1 as [|x xs Hx _ IH]; cbn; [reflexivity|]. now rewrite Hx. Qed.

(** X13: one evaluation of the posterior calls the hologram solver at most once,
    on the data the likelihood is evaluated on (the subset when [pixels] is
    given), and never calls [calc_field]. *)
Theorem lnposterior_calls_solver_at_most_once self par_vals data pixels :
  List.length (filter is_solver_call (trace (lnposterior self par_vals data pixels)))
    <= 1 /\
  Forall (fun e => is_field_call e = false)
         (trace (lnposterior self par_vals data pixels)) /\
  forall s a, In (EvCalcHolo s a) (trace (lnposterior self par_vals data pixels)) ->
              s = likelihood_data data pixels.
Proof.
  assert (Hprior : forall P : event -> Prop,
             (forall d, P (EvCheck d)) -> (forall n v, P (EvLnprob n v)) ->
             Forall P (trace (lnprior self par_vals)))
    by (intros P; apply lnprior_trace).
  destruct (lnposterior_trace_cases self par_vals data pixels) as [-> | ->].
  - split; [|split].
    + rewrite filter_none; [cbn; lia|]. now apply Hprior.
    + now apply Hprior.
    + intros s a Hin.
      assert (H : Forall (fun e => is_solver_call e = false)
                         (trace (lnprior self par_vals))) by now apply Hprior.
      rewrite Forall_forall in H. apply H in Hin. discriminate.
  - assert (Hsub : Forall (fun e => is_solver_call e = false)
                     match pixels with Some px => [EvSubset data px] | None => [] end)
      by (destruct pixels; repeat constructor).
    unfold lnlike.
    destruct (lnlike_trace_shape self (_pack self par_vals)
                (likelihood_data data pixels)) as [-> | [a ->]].
    + split; [|split].
      * rewrite !filter_app, (filter_none _ (trace (lnprior self par_vals))),
          (filter_none _ _ Hsub); [cbn; lia|]. now apply Hprior.
      * rewrite !Forall_app. repeat split; [now apply Hprior| |constructor].
        destruct pixels; repeat constructor.
      * intros s a Hin. rewrite app_nil_r in Hin.
        apply in_app_or in Hin as [Hin|Hin].
        -- assert (H : Forall (fun e => is_solver_call e = false)
                              (trace (lnprior self par_vals))) by now apply Hprior.
           rewrite Forall_forall in H. apply H in Hin. discriminate.
        -- rewrite Forall_forall in Hsub. apply Hsub in Hin. discriminate.
    + split; [|split].
      * rewrite !filter_app, (filter_none _ (trace (lnprior self par_vals))),
          (filter_none _ _ Hsub); [cbn; lia|]. now apply Hprior.
      * rewrite !Forall_app. repeat split; [now apply Hprior| |repeat constructor].
        destruct pixels; repeat constructor.
      * intros s a' Hin.
        apply in_app_or in Hin as [Hin|Hin].
        -- assert (H : Forall (fun e => is_solver_call e = false)
                              (trace (lnprior self par_vals))) by now apply Hprior.
           rewrite Forall_forall in H. apply H in Hin. discriminate.
        -- apply in_app_or in Hin as [Hin|Hin].
           ++ rewrite Forall_forall in Hsub. apply Hsub in Hin. discriminate.
           ++ destruct Hin as [Hin|[]]. now injection Hin as <- _.
Qed.

(** X14: [make_subset_data] is called only when [pixels] is given, and then at
    most once, with the data and the pixels as passed. *)
Theorem lnposterior_subsets_only_on_request self par_vals data pixels :
  subset_calls (trace (lnposterior self par_vals data pixels)) = [] \/
  exists px, pixels = Some px /\
             subset_calls (trace (lnposterior self par_vals data pixels))
               = [(data, px)].
Proof.
  assert (Hprior : subset_calls (trace (lnprior self par_vals)) = []).
  { apply subset_calls_none. now apply lnprior_trace. }
  assert (Hlike : forall d, subset_calls (trace (lnlike self par_vals d)) = []).
  { intro d. apply subset_calls_none. now apply lnlike_trace. }
  destruct (lnposterior_trace_cases self par_vals data pixels) as [-> | ->].
  - now left.
  - rewrite !subset_calls_app, Hprior, Hlike.
    destruct pixels as [px|]; [right; now exists px|now left].
Qed.

(** *** The forward model and the likelihood *)

(** X15: only the two scattering failures are caught: any other exception of the
    solver propagates out of [_fields], out of [AlphaModel._forward] and out
    of [_lnlike], after the one solver call. *)
Theorem other_solver_errors_propagate :
  (forall self pars schema (os : pydict * Scatterer) e,
     _optics_scatterer self pars schema = Ok os ->
     calc_field schema (snd os) (theory self) (fst os) = Raise e ->
     is_scattering_failure e = false ->
     _fields self pars schema = ([EvCalcField schema], Raise e)) /\
  (forall self pars data (rp ap : pyval * pydict) (os : pydict * Scatterer)
          noise_sd e,
     class_of self = AlphaModelClass ->
     get_par self "noise_sd" pars (Some data) = Ok rp ->
     dict_to_array data (fst rp) = Ok noise_sd ->
     get_par self "alpha" (snd rp) None = Ok ap ->
     _optics_scatterer self (snd ap) data = Ok os ->
     calc_holo data (snd os) (theory self) (fst ap) (fst os) = Raise e ->
     is_scattering_failure e = false ->
     _forward self (snd rp) data None = ([EvCalcHolo data (fst ap)], Raise e) /\
     _lnlike self pars data = ([EvCalcHolo data (fst ap)], Raise e)).
Proof.
  split.
  - intros self pars schema os e Hos Hcalc He.
    rewrite (fields_run Scatterer Field self pars schema os Hos), Hcalc.
    cbn. now rewrite He.
  - intros self pars data rp ap os noise_sd e Hcls Hgp Hda Hap Hos Hcalc He.
    assert (Hfw : _forward self (snd rp) data None
                  = ([EvCalcHolo data (fst ap)], Raise e)).
    { unfold _forward. rewrite Hcls.
      rewrite (forward_run_from_pars Scatterer Field self (snd rp) data ap os Hap Hos),
        Hcalc.
      cbn. now rewrite He. }
    split; [exact Hfw|].
    unfold _lnlike. rewrite Hgp. unfold lift at 1. rewrite bind_ok.
    cbn [trace outcome fst snd app].
    rewrite Hda. unfold lift at 1. rewrite bind_ok.
    cbn [trace outcome fst snd app].
    rewrite Hfw. reflexivity.
Qed.

(** X16: the scatterer is made before the [try]: an exception of
    [_optics_scatterer] propagates out of [_fields] and of
    [AlphaModel._forward] even when it is InvalidScatterer, out of [_lnlike]
    too, and the solver is not called. *)
Theorem failure_before_try_is_not_caught :
  (forall self pars schema e,
     _optics_scatterer self pars schema = Raise e ->
     _fields self pars schema = ([], Raise e)) /\
  (forall self pars schema (alpha : option pyval) (ap : pyval * pydict) e,
     class_of self = AlphaModelClass ->
     match alpha with
     | Some a => Ok (a, pars)
     | None => get_par self "alpha" pars None
     end = Ok ap ->
     _optics_scatterer self (snd ap) schema = Raise e ->
     _forward self pars schema alpha = ([], Raise e)) /\
  (forall self pars data (rp ap : pyval * pydict) noise_sd e,
     class_of self = AlphaModelClass ->
     get_par self "noise_sd" pars (Some data) = Ok rp ->
     dict_to_array data (fst rp) = Ok noise_sd ->
     get_par self "alpha" (snd rp) None = Ok ap ->
     _optics_scatterer self (snd ap) data = Raise e ->
     _lnlike self pars data = ([], Raise e)).
Proof.
  assert (Hforward :
    forall self pars schema (alpha : option pyval) (ap : pyval * pydict) e,
      class_of self = AlphaModelClass ->
      match alpha with
      | Some a => Ok (a, pars)
      | None => get_par self "alpha" pars None
      end = Ok ap ->
      _optics_scatterer self (snd ap) schema = Raise e ->
      _forward self pars schema alpha = ([], Raise e)).
  { intros self pars schema alpha ap e Hcls Hap Hos.
    unfold _forward, AlphaModel_forward. rewrite Hcls.
    destruct alpha as [a|].
    - injection Hap as <-. rewrite bind_ret. cbn [fst snd] in *. now rewrite Hos.
    - rewrite Hap. unfold lift at 1. rewrite bind_ok. now rewrite Hos. }
  split; [|split].
  - intros self pars schema e Hos. unfold _fields. now rewrite Hos.
  - exact Hforward.
  - intros self pars data rp ap noise_sd e Hcls Hgp Hda Hap Hos.
    unfold _lnlike. rewrite Hgp. unfold lift at 1. rewrite bind_ok.
    cbn [trace outcome fst snd app].
    rewrite Hda. unfold lift at 1. rewrite bind_ok.
    cbn [trace outcome fst snd app].
    now rewrite (Hforward self (snd rp) data None ap e Hcls Hap Hos).
Qed.

Lemma forallb_map {A B} (f : B -> bool) (g : A -> B) (xs : list A) :
  forallb f (map g xs) = forallb (fun x => f (g x)) xs.
Proof. induction xs as [|x xs IH]; cbn; [reflexivity|]. now rewrite IH. Qed.

(** [_lnlike] for a per-pixel [noise_sd] of the size of the data, given the
    residual array. *)
Lemma lnlike_pixel_sd_of_residual self pars data (rp : pyval * pydict)
      (fwd : pyval) (resid sds : list float) :
  get_par self "noise_sd" pars (Some data) = Ok rp ->
  dict_to_array data (fst rp) = Ok (VArr sds) ->
  outcome (_forward self (snd rp) data None) = Ok fwd ->
  broadcast PrimFloat.sub fwd (VArr (values data)) = Ok (VArr resid) ->
  List.length resid = List.length sds ->
  outcome (_lnlike self pars data) =
    Ok (neg_half (size data) * np_log (2 * F64.np_pi)
        - F64.of_nat (size data) * np_mean (map np_log sds)
        - np_sum (zip_with PrimFloat.div (map F64.sq resid)
                           (map (PrimFloat.mul 2) (map F64.sq sds))))%float.
Proof.
  intros Hgp Hda Hfw Hres Hlen. unfold _lnlike.
  rewrite (outcome_bind _ _ rp) by (now rewrite Hgp).
  rewrite (outcome_bind _ _ (VArr sds)) by (now rewrite Hda).
  rewrite (outcome_bind _ _ fwd) by exact Hfw.
  rewrite (outcome_bind _ _ sds) by reflexivity.
  rewrite (outcome_bind _ _ (VArr resid)) by (now rewrite Hres).
  rewrite (outcome_bind _ _ (VArr (map F64.sq resid))) by reflexivity.
  rewrite (outcome_bind _ _ (VArr (map F64.sq sds))) by reflexivity.
  rewrite (outcome_bind _ _ (VArr (map (PrimFloat.mul 2) (map F64.sq sds))))
    by reflexivity.
  rewrite (outcome_bind _ _ (VArr (zip_with PrimFloat.div (map F64.sq resid)
                                     (map (PrimFloat.mul 2) (map F64.sq sds))))).
  2:{ cbn [outcome lift snd]. apply broadcast_same_size.
      now rewrite !length_map. }
  rewrite (outcome_bind _ _ (zip_with PrimFloat.div (map F64.sq resid)
                               (map (PrimFloat.mul 2) (map F64.sq sds))))
    by reflexivity.
  reflexivity.
Qed.

(** X17: a scattering failure with a per-pixel [noise_sd]: when the data are
    finite, every pixel's doubled squared [noise_sd] is positive and finite
    and the two leading terms are finite, [_lnlike] returns negative
    infinity (numpy's sum of infinities being infinite). *)
Theorem lnlike_after_failure_with_per_pixel_noise
        self pars data (rp ap : pyval * pydict) (os : pydict * Scatterer)
        (sds : list float) e :
  class_of self = AlphaModelClass ->
  get_par self "noise_sd" pars (Some data) = Ok rp ->
  dict_to_array data (fst rp) = Ok (VArr sds) ->
  List.length sds = size data ->
  get_par self "alpha" (snd rp) None = Ok ap ->
  _optics_scatterer self (snd ap) data = Ok os ->
  calc_holo data (snd os) (theory self) (fst ap) (fst os) = Raise e ->
  is_scattering_failure e = true ->
  forallb F64.finite (values data) = true ->
  forallb (fun s => F64.pos_finite (2 * F64.sq s)) sds = true ->
  F64.finite (neg_half (size data) * np_log (2 * F64.np_pi)
              - F64.of_nat (size data) * np_mean (map np_log sds)) = true ->
  np_sum (repeat F64.inf (size data)) = F64.inf ->
  outcome (_lnlike self pars data) = Ok F64.ninf.
Proof.
  intros Hcls Hgp Hda Hlen Hap Hos Hcalc He Hfin Hpos Hlead Hsum.
  assert (Hfw : outcome (_forward self (snd rp) data None) = Ok (VFloat F64.ninf)).
  { unfold _forward. rewrite Hcls.
    rewrite (forward_run_from_pars Scatterer Field self (snd rp) data ap os Hap Hos),
      Hcalc.
    cbn. now rewrite He. }
  unfold size in *.
  rewrite (lnlike_pixel_sd_of_residual self pars data rp (VFloat F64.ninf)
             (map (PrimFloat.sub F64.ninf) (values data)) sds Hgp Hda Hfw eq_refl)
    by (now rewrite length_map).
  rewrite (map_ninf_sub _ Hfin), map_repeat, F64Facts.sq_ninf.
  assert (Hdens : List.length (map (PrimFloat.mul 2) (map F64.sq sds))
                  = List.length (values data)) by (now rewrite !length_map).
  rewrite <- Hdens, F64More.inf_div_each, Hdens.
  - unfold size. rewrite Hsum. f_equal. now apply F64Facts.finite_sub_inf.
  - now rewrite !forallb_map.
Qed.

(** X18: zero residual with a per-pixel [noise_sd]: when the forward prediction
    equals the data, the data are finite and every pixel's doubled squared
    [noise_sd] is a positive float, [_lnlike] is exactly
    [-N/2*log(2*pi) - N*mean(log(noise_sd))] (numpy's sum of zeros being
    zero). *)
Theorem lnlike_of_exact_prediction_with_per_pixel_noise
        self pars data (rp : pyval * pydict) (sds : list float) :
  get_par self "noise_sd" pars (Some data) = Ok rp ->
  dict_to_array data (fst rp) = Ok (VArr sds) ->
  List.length sds = size data ->
  outcome (_forward self (snd rp) data None) = Ok (VArr (values data)) ->
  forallb F64.finite (values data) = true ->
  forallb (fun s => F64.positive (2 * F64.sq s)) sds = true ->
  np_sum (repeat 0%float (size data)) = 0%float ->
  outcome (_lnlike self pars data) =
    Ok (zero_residual_loglik_per_pixel (size data) sds).
Proof.
  intros Hgp Hda Hlen Hfw Hfin Hpos Hsum. unfold size in *.
  rewrite (lnlike_pixel_sd_of_residual self pars data rp (VArr (values data))
             (zip_with PrimFloat.sub (values data) (values data)) sds Hgp Hda Hfw
             (broadcast_same_size _ _ _ eq_refl))
    by (now rewrite zip_with_length, Nat.min_id).
  rewrite (zip_sub_self _ Hfin), map_repeat, F64Facts.sq_zero.
  assert (Hdens : List.length (map (PrimFloat.mul 2) (map F64.sq sds))
                  = List.length (values data)) by (now rewrite !length_map).
  rewrite <- Hdens, F64More.zero_div_each, Hdens.
  - unfold size. rewrite Hsum, F64Facts.sub_zero_r. reflexivity.
  - now rewrite !forallb_map.
Qed.

End FurtherProperties.

(** *** Construction *)

Section FurtherConstructionProperties.

Variable Scatterer : Type.

Lemma append_at_elsewhere (h : heap Scatterer) (i j : address)
      (c : ScattererConstraint Scatterer) :
  i <> j -> deref (append_at h i c) j = deref h j.
Proof.
  unfold deref. revert i j.
  induction h as [|l h IH]; intros [|i] [|j] Hij; cbn; try reflexivity;
    try congruence.
  apply IH. congruence.
Qed.

(** X19: each [__init__] has a default list of its own, and [AlphaModel.__init__]
    hands its own on to [NoiseModel.__init__]: a default-built NoiseModel and
    a default-built AlphaModel do not hold the same list, and a constraint
    appended through one is not registered with the other. *)
Theorem defaults_of_the_two_classes_are_distinct
        (h0 : heap Scatterer) (s1 s2 : ScattererTemplate Scatterer)
        (c : ScattererConstraint Scatterer) :
  let h := fst (run_class_statements h0) in
  let defs := snd (run_class_statements h0) in
  let n := NoiseModel_init defs NoiseModelClass s1 None None in
  let a := AlphaModel_init defs s2 None None in
  instance_constraints n <> instance_constraints a /\
  deref (append_at h (instance_constraints a) c) (instance_constraints n) = [] /\
  deref (append_at h (instance_constraints n) c) (instance_constraints a) = [].
Proof.
  cbn -[deref append_at].
  assert (Hneq : List.length h0 <> List.length (h0 ++ [[]])).
  { rewrite length_app. cbn. lia. }
  split; [exact Hneq|split].
  - rewrite append_at_elsewhere by congruence.
    rewrite <- app_assoc. apply deref_fresh.
  - rewrite append_at_elsewhere by exact Hneq.
    apply (deref_fresh Scatterer (h0 ++ [[]]) [] []).
Qed.

End FurtherConstructionProperties.

(** ** The further properties at work on the sample world *)

Module FurtherExamples.

Import Sample MoreSamples.

Lemma value_of_n_is_found_under_its_name :
  dict_get (_pack guarded (PSeq good_values)) (name par_n) = Some (VFloat 1.5).
Proof.
  apply (pack_then_lookup_recovers_value scatterer_t guarded good_values 1
           par_n (VFloat 1.5)).
  - repeat constructor; cbn; intro H;
      repeat (destruct H as [H|H]; try discriminate H); exact H.
  - reflexivity.
  - reflexivity.
Defined.

Lemma fourth_value_is_ignored :
  lnposterior (imports := world exact_solver) guarded
              (PSeq (good_values ++ [VFloat 7])) two_pixels None
    = lnposterior (imports := world exact_solver) guarded
                  (PSeq good_values) two_pixels None.
Proof.
  assert (Hlen : List.length (parameters guarded) <= List.length good_values)
    by (cbn; lia).
  exact (proj2 (proj2 (proj2
           (extra_values_are_ignored scatterer_t field_t
              (imports := world exact_solver) guarded good_values [VFloat 7]
              two_pixels None Hlen)))).
Defined.

Lemma third_constraint_is_never_checked :
  lnprior thrice_guarded (PSeq bad_values)
    = (repeat (EvCheck (_pack thrice_guarded (PSeq bad_values))) 2, Ok F64.ninf).
Proof.
  apply (lnprior_stops_at_first_rejection scatterer_t thrice_guarded
           (PSeq bad_values) [has_radius] [has_radius] positive_radius).
  - reflexivity.
  - reflexivity.
  - reflexivity.
Defined.

Lemma accepted_sequence_calls_each_prior_once :
  lnprior guarded (PSeq good_values)
    = ([EvCheck good_pars; EvLnprob "r" (VFloat 0.5); EvLnprob "n" (VFloat 1.5);
        EvLnprob "alpha" (VFloat 1)],
       Ok 0%float).
Proof.
  rewrite (lnprior_of_accepted_sequence scatterer_t guarded good_values eq_refl).
  reflexivity.
Defined.

Lemma dict_without_n_raises_key_error :
  lnprior unconstrained (PDict dict_without_n)
    = ([EvLnprob "r" (VFloat 0.5)], Raise (KeyError "n")).
Proof.
  apply (lnprior_of_dict_missing_a_name scatterer_t unconstrained dict_without_n
           [par_r] [par_alpha] par_n [VFloat 0.5]).
  - reflexivity.
  - reflexivity.
  - repeat constructor.
  - reflexivity.
Defined.

Lemma unconstrained_dict_and_sequence_agree :
  lnprior unconstrained (PDict good_dict) = lnprior unconstrained (PSeq good_values).
Proof.
  apply (lnprior_of_dict_is_that_of_its_values scatterer_t unconstrained
           good_dict good_values).
  - reflexivity.
  - repeat constructor.
Defined.

Lemma negative_radius_is_outside_support :
  outcome (lnprior bounded (PSeq outside_support)) = Ok F64.ninf /\
  outcome (lnposterior (imports := world failing_solver) bounded
             (PSeq outside_support) two_pixels None) = Ok F64.ninf /\
  Forall (fun e => is_solver_call e = false)
         (trace (lnposterior (imports := world failing_solver) bounded
                   (PSeq outside_support) two_pixels None)).
Proof.
  apply (value_outside_prior_support_is_rejected scatterer_t field_t
           (imports := world failing_solver) bounded outside_support two_pixels
           None [(-0)%float] [(-0)%float]).
  - reflexivity.
  - reflexivity.
  - reflexivity.
  - reflexivity.
Defined.

Lemma key_error_reaches_the_caller :
  outcome (lnposterior (imports := world exact_solver) unconstrained
             (PDict dict_without_n) two_pixels None) = Raise (KeyError "n").
Proof.
  apply (lnposterior_propagates_prior_exception scatterer_t field_t
           (imports := world exact_solver) unconstrained (PDict dict_without_n)
           two_pixels None (KeyError "n")).
  reflexivity.
Defined.

Lemma nan_radius_gives_nan_posterior :
  outcome (lnposterior (imports := world exact_solver) unconstrained
             (PSeq nan_values) two_pixels None) = Ok nan.
Proof.
  apply (proj2 (lnposterior_of_nan_prior_evaluates_likelihood scatterer_t field_t
                  (imports := world exact_solver) unconstrained (PSeq nan_values)
                  two_pixels None eq_refl)
           (-0x1.ce6bb25aa1314p-2)%float).
  reflexivity.
Defined.

Lemma failed_solver_gives_neg_infinite_posterior :
  outcome (lnposterior (imports := world failing_solver) guarded
             (PSeq good_values) two_pixels None) = Ok F64.ninf.
Proof.
  apply (lnposterior_of_failed_likelihood scatterer_t field_t
           (imports := world failing_solver) guarded (PSeq good_values)
           two_pixels None 0%float).
  - reflexivity.
  - reflexivity.
  - reflexivity.
Defined.

Lemma crash_of_the_solver_reaches_the_caller :
  _fields (imports := crashing_world) guarded good_pars two_pixels
    = ([EvCalcField two_pixels], Raise (OtherError "solver crashed")) /\
  _lnlike (imports := crashing_world) guarded good_pars two_pixels
    = ([EvCalcHolo two_pixels (VFloat 1)], Raise (OtherError "solver crashed")).
Proof.
  destruct (other_solver_errors_propagate scatterer_t field_t
              (imports := crashing_world)) as (Hfields & Hlnlike).
  split.
  - apply (Hfields guarded good_pars two_pixels ([], good_pars)
             (OtherError "solver crashed")); reflexivity.
  - apply (Hlnlike guarded good_pars two_pixels (VArr [0.5%float], good_pars)
             (VFloat 1, sphere_pars) ([], sphere_pars) (VArr [0.5%float])
             (OtherError "solver crashed")); reflexivity.
Defined.

Lemma unbuildable_scatterer_raises :
  _fields (imports := world failing_solver) unbuildable good_pars two_pixels
    = ([], Raise InvalidScatterer) /\
  _forward (imports := world failing_solver) unbuildable good_pars two_pixels
           (Some (VFloat 2))
    = ([], Raise InvalidScatterer) /\
  _lnlike (imports := world failing_solver) unbuildable good_pars two_pixels
    = ([], Raise InvalidScatterer).
Proof.
  destruct (failure_before_try_is_not_caught scatterer_t field_t
              (imports := world failing_solver)) as (Hfields & Hforward & Hlnlike).
  split; [|split].
  - apply Hfields. reflexivity.
  - apply (Hforward unbuildable good_pars two_pixels (Some (VFloat 2))
             (VFloat 2, good_pars) InvalidScatterer); reflexivity.
  - apply (Hlnlike unbuildable good_pars two_pixels (VArr [0.5%float], good_pars)
             (VFloat 1, sphere_pars) (VArr [0.5%float]) InvalidScatterer);
      reflexivity.
Defined.

Lemma failure_with_two_noise_levels :
  outcome (_lnlike (imports := world failing_solver) per_pixel good_pars two_pixels)
    = Ok F64.ninf.
Proof.
  apply (lnlike_after_failure_with_per_pixel_noise scatterer_t field_t
           (imports := world failing_solver) per_pixel good_pars two_pixels
           (VArr [0.5%float; 1%float], good_pars) (VFloat 1, sphere_pars)
           ([], sphere_pars) [0.5%float; 1%float] MultisphereFailure);
    reflexivity.
Defined.

Lemma exact_prediction_with_two_noise_levels :
  outcome (_lnlike (imports := world exact_solver) per_pixel good_pars two_pixels)
    = Ok (zero_residual_loglik_per_pixel (imports := world exact_solver) 2
            [0.5%float; 1%float]).
Proof.
  apply (lnlike_of_exact_prediction_with_per_pixel_noise scatterer_t field_t
           (imports := world exact_solver) per_pixel good_pars two_pixels
           (VArr [0.5%float; 1%float], good_pars) [0.5%float; 1%float]);
    reflexivity.
Defined.

End FurtherExamples.
